(** * booking-tickets: the order allocation path

    A shallow embedding of the Go packages that take part in
    [CreateOrder]:

    - [internal/models/domain], [internal/models/db]: the structs;
    - [internal/repository]: [WithTransaction], [GetConcertSessionByID],
      [GetAvailableTicketsBySessionID], [CreateOrder] (the INSERT) and
      [UpdateTicketStatuses];
    - [internal/service]: [OrderService.CreateOrder];
    - [internal/handler]: [GRPCHandler.CreateOrder].

    The PostgreSQL tables of [migrations/001_initial_schema] are lists of
    rows.  A connection state keeps the committed tables, the writes of
    the open transaction, and the log of the statements that were issued
    together with the handle ([*sqlx.DB] pool or [*sqlx.Tx]) each one was
    issued on.  Calls that run at the same time share the committed
    tables and take turns statement by statement. *)

From Stdlib Require Import ZArith NArith List String Ascii Bool Lia.
From Stdlib Require Import Sorting.Mergesort Sorting.Sorted Sorting.Permutation Orders.
From Stdlib Require Import QArith.
From Stdlib Require Import SpecFloat.
From Stdlib Require Import DecimalString.
Import ListNotations.
Open Scope string_scope.
Open Scope list_scope.
Open Scope Z_scope.

(* ================================================================= *)
(** * External library types *)

(** [github.com/google/uuid]: a [UUID] is 16 bytes; it is kept as the
    128-bit number those bytes spell in big-endian order, which is also
    the order PostgreSQL compares [uuid] values in. *)
Module uuid.

Definition UUID := N.

Definition hex_digit (n : N) : ascii :=
  match n with
  | 0%N => "0" | 1%N => "1" | 2%N => "2" | 3%N => "3"
  | 4%N => "4" | 5%N => "5" | 6%N => "6" | 7%N => "7"
  | 8%N => "8" | 9%N => "9" | 10%N => "a" | 11%N => "b"
  | 12%N => "c" | 13%N => "d" | 14%N => "e" | _ => "f"
  end%char.

(** [hex k n]: the [k] lowest hexadecimal digits of [n], most
    significant first. *)
Fixpoint hex (k : nat) (n : N) : list ascii :=
  match k with
  | O => []
  | S k' => hex k' (N.div n 16) ++ [hex_digit (N.modulo n 16)]
  end.

Fixpoint string_of_list (l : list ascii) : string :=
  match l with
  | [] => EmptyString
  | c :: l' => String c (string_of_list l')
  end.

(** [UUID.String]: xxxxxxxx-xxxx-xxxx-xxxx-xxxxxxxxxxxx. *)
Definition String (u : UUID) : string :=
  let d := hex 32 u in
  string_of_list
    (firstn 8 d ++ ["-"%char] ++
     firstn 4 (skipn 8 d) ++ ["-"%char] ++
     firstn 4 (skipn 12 d) ++ ["-"%char] ++
     firstn 4 (skipn 16 d) ++ ["-"%char] ++
     skipn 20 d).

End uuid.

(** [github.com/shopspring/decimal]: a [Decimal] is [value * 10 ^ exp]
    with an arbitrary-precision [value] and an [int32] exponent. *)
Module decimal.

Record Decimal := mkDecimal { value : Z; exp : Z }.

Definition NewFromInt (v : Z) : Decimal := mkDecimal v 0.

(** [Mul]: the library multiplies the values and adds the exponents; it
    panics when the exponent leaves [int32], which is [None] here. *)
Definition Mul (d d2 : Decimal) : option Decimal :=
  let e := exp d + exp d2 in
  if (e >? 2147483647) || (e <? -2147483648) then None
  else Some (mkDecimal (value d * value d2) e).

(** The number a decimal stands for. *)
Definition toQ (d : Decimal) : Q :=
  if 0 <=? exp d then inject_Z (value d * 10 ^ exp d)
  else Qmake (value d) (Z.to_pos (10 ^ (- exp d))).

Definition float64_of_Z (z : Z) : spec_float :=
  binary_normalize 53 1024 z 0 false.

(** [InexactFloat64] is [d.Rat().Float64()]: the binary64 number nearest
    to the decimal (ties to even).  Both integers below are exactly
    representable whenever they are smaller than [2^53], and then the
    IEEE division is that correctly rounded quotient; every total read
    back from a [DECIMAL(10,2)] column is in that range. *)
Definition InexactFloat64 (d : Decimal) : spec_float :=
  if 0 <=? exp d then float64_of_Z (value d * 10 ^ exp d)
  else SFdiv 53 1024 (float64_of_Z (value d)) (float64_of_Z (10 ^ (- exp d))).

(** The rational a finite binary float stands for. *)
Definition SF2Q (f : spec_float) : option Q :=
  match f with
  | S754_zero _ => Some 0%Q
  | S754_finite s m e =>
      let z := if s then Z.neg m else Z.pos m in
      Some (if 0 <=? e then inject_Z (z * 2 ^ e)
            else Qmake z (Z.to_pos (2 ^ (- e))))
  | _ => None
  end.

Definition eqb (a b : Decimal) : bool :=
  (value a =? value b) && (exp a =? exp b).

End decimal.

(* ================================================================= *)
(** * internal/models *)

Module models.

Module Ticket.
Record t := mk { ID : uuid.UUID; SessionID : Z; Status : string }.
End Ticket.

Module ConcertSession.
Record t := mk {
  ID : Z; ConcertID : Z; StartTime : Z; EndTime : Z;
  Venue : string; Price : decimal.Decimal }.
End ConcertSession.

(** [Items] is never set on this path and stays nil. *)
Module Order.
Record t := mk {
  ID : Z; CreatedAt : Z; Status : string; TotalPrice : decimal.Decimal }.
End Order.

End models.

Module db.

Module ConcertSession.
Record t := mk {
  ID : Z; ConcertID : Z; StartTime : Z; EndTime : Z;
  Venue : string; NumberOfSeats : Z; Price : decimal.Decimal }.

Definition ToConcertSession (c : t) : models.ConcertSession.t :=
  models.ConcertSession.mk (ID c) (ConcertID c) (StartTime c) (EndTime c)
    (Venue c) (Price c).
End ConcertSession.

(** A row of the [orders] table: id, created_at, status, total_price. *)
Module Order.
Record t := mk {
  ID : Z; CreatedAt : Z; Status : string; TotalPrice : decimal.Decimal }.
End Order.

End db.

(* ================================================================= *)
(** * The PostgreSQL side: tables, statements, connection state *)

Module sql.

(** The tables of [001_initial_schema] that [CreateOrder] reads or
    writes. *)
Record DB := mkDB {
  concert_sessions : list db.ConcertSession.t;
  tickets : list models.Ticket.t;
  orders : list db.Order.t }.

(** Go [error] values are told apart by their [Error()] text, which is
    what the handler switches on. *)
Definition error := string.

Inductive result (A : Type) : Type :=
| Ok (a : A)
| Err (e : error).
Arguments Ok {A} a.
Arguments Err {A} e.

(** [*sqlx.DB] (a pooled, auto-committing connection) or [*sqlx.Tx]. *)
Inductive Handle := Pool | InTx.

Inductive Stmt :=
| Begin
| Commit
| Rollback
| SelectSession (id : Z)
| SelectAvailableForUpdate (sessionID : Z) (limit : Z)
| InsertOrder (status : string) (total : decimal.Decimal)
| UpdateTicketStatus (status : string) (id : uuid.UUID).

Definition Call := (Handle * Stmt)%type.

(** What the program cannot decide: which statements fail for reasons of
    the storage layer (connectivity, deadlock, ...), and the defaults the
    server fills in for a new order ([SERIAL] id, [NOW()] in
    milliseconds).  The sequence behind [SERIAL] is not part of [DB]. *)
Record Env := mkEnv {
  begin_err : option error;
  get_session_err : option error;
  select_err : option error;
  insert_err : option error;
  exec_err : nat -> option error;
  commit_err : option error;
  order_seq : Z;
  now_ms : Z }.

(** What an open transaction has written and not yet committed. *)
Inductive Write :=
| InsertedOrder (row : db.Order.t)
| UpdatedTicket (status : string) (id : uuid.UUID).

(** A connection pool with at most one open transaction of our own:
    [pending] holds the writes of that transaction, in the order they
    were made.  Statements on the pool see [committed]; statements on
    the transaction see [view committed writes]. *)
Record Conn := mkConn {
  committed : DB;
  pending : option (list Write);
  log : list Call }.

Definition record (c : Call) (s : Conn) : Conn :=
  mkConn (committed s) (pending s) (log s ++ [c]).

(** CHECK (status IN ('pending', 'sold', 'available')) *)
Definition status_allowed (st : string) : bool :=
  (st =? "pending")%string || (st =? "sold")%string || (st =? "available")%string.

(** UPDATE tickets SET status = $1 WHERE id = $2 *)
Definition set_status (st : string) (id : uuid.UUID) (t : models.Ticket.t)
  : models.Ticket.t :=
  if N.eqb (models.Ticket.ID t) id
  then models.Ticket.mk (models.Ticket.ID t) (models.Ticket.SessionID t) st
  else t.

(** The UPDATE is refused when a row it rewrites would violate the
    CHECK. *)
Definition update_refused (st : string) (id : uuid.UUID)
    (ts : list models.Ticket.t) : bool :=
  existsb (fun t => N.eqb (models.Ticket.ID t) id) ts && negb (status_allowed st).

Definition apply_write (d : DB) (w : Write) : DB :=
  match w with
  | InsertedOrder row => mkDB (concert_sessions d) (tickets d) (orders d ++ [row])
  | UpdatedTicket st id =>
      mkDB (concert_sessions d) (map (set_status st id) (tickets d)) (orders d)
  end.

(** The tables as a transaction with writes [ws] sees them, and as they
    are once it has committed. *)
Definition view (d : DB) (ws : list Write) : DB := fold_left apply_write ws d.

(** Storing a decimal in a [DECIMAL(10,2)] column: rounded to two
    places, half away from zero; an error when ten digits do not
    suffice. *)
Definition round_half_away (n d : Z) : Z :=
  Z.sgn n * ((2 * Z.abs n + d) / (2 * d)).

Definition numeric_10_2 (d : decimal.Decimal) : option decimal.Decimal :=
  let e := decimal.exp d in
  let cents :=
    if -2 <=? e then decimal.value d * 10 ^ (e + 2)
    else round_half_away (decimal.value d) (10 ^ (- 2 - e)) in
  if Z.abs cents <? 10 ^ 10 then Some (decimal.mkDecimal cents (-2))
  else None.

(** WHERE session_id = $1 AND status = 'available' *)
Definition available_in (sessionID : Z) (t : models.Ticket.t) : bool :=
  (models.Ticket.SessionID t =? sessionID)
  && (models.Ticket.Status t =? "available")%string.

Module TicketOrder <: TotalLeBool.
Definition t := models.Ticket.t.
Definition leb (x y : t) : bool :=
  N.leb (models.Ticket.ID x) (models.Ticket.ID y).
Theorem leb_total : forall x y, leb x y = true \/ leb y x = true.
Proof.
  intros x y. unfold leb.
  destruct (N.leb_spec (models.Ticket.ID x) (models.Ticket.ID y)) as [H|H].
  - now left.
  - right. apply N.leb_le. now apply N.lt_le_incl.
Qed.
End TicketOrder.

Module TicketSort := Sort TicketOrder.

(** SELECT id, session_id, status FROM tickets
    WHERE session_id = $1 AND status = 'available'
    ORDER BY id ASC LIMIT $2 FOR UPDATE *)
Definition select_available (sessionID limit : Z) (ts : list models.Ticket.t)
  : result (list models.Ticket.t) :=
  if limit <? 0 then Err "pq: LIMIT must not be negative"
  else Ok (firstn (Z.to_nat limit)
             (TicketSort.sort (filter (available_in sessionID) ts))).

(** SELECT ... FROM concert_sessions WHERE id = $1 *)
Definition select_session (id : Z) (ss : list db.ConcertSession.t)
  : option db.ConcertSession.t :=
  find (fun s => db.ConcertSession.ID s =? id) ss.

End sql.

(* ================================================================= *)
(** * internal/repository *)

Module repository.
Import sql.

(** Go code that calls the store and returns [(value, error)]: the
    connection state is threaded through, also past an error, since the
    deferred rollback still runs then. *)
Definition M (A : Type) : Type := Conn -> result A * Conn.

Definition ret {A} (a : A) : M A := fun s => (Ok a, s).

Definition fail {A} (e : error) : M A := fun s => (Err e, s).

(** [v, err := c; if err != nil { return err }; k v] *)
Definition bind {A B} (c : M A) (k : A -> M B) : M B :=
  fun s =>
    match c s with
    | (Ok a, s') => k a s'
    | (Err e, s') => (Err e, s')
    end.

Declare Scope go_scope.
Delimit Scope go_scope with go.
Notation "x <- c ;; k" := (bind c (fun x => k))
  (at level 100, c at next level, right associativity) : go_scope.
Notation "c ;;; k" := (bind c (fun _ => k))
  (at level 100, k at level 200, right associativity) : go_scope.
Open Scope go_scope.

Definition tx_closed : error :=
  "sql: transaction has already been committed or rolled back".

Section Repository.
Variable env : Env.

(** [r.db.Beginx()] *)
Definition Beginx : M unit := fun s =>
  let s := record (Pool, Begin) s in
  match begin_err env with
  | Some e => (Err e, s)
  | None => (Ok tt, mkConn (committed s) (Some []) (log s))
  end.

(** [tx.Commit()]: the writes reach the committed tables, or, when the
    commit fails, none of them does. *)
Definition Commit : M unit := fun s =>
  let s := record (InTx, sql.Commit) s in
  match commit_err env, pending s with
  | Some e, _ => (Err e, mkConn (committed s) None (log s))
  | None, Some ws => (Ok tt, mkConn (view (committed s) ws) None (log s))
  | None, None => (Err tx_closed, s)
  end.

(** [tx.Rollback()] *)
Definition Rollback : M unit := fun s =>
  let s := record (InTx, sql.Rollback) s in
  (Ok tt, mkConn (committed s) None (log s)).

(** [BaseRepository.WithTransaction].  The Go closure hands its results
    to the caller through captured variables; here [fn] returns them.
    The deferred function rolls back when [fn] failed and ignores the
    error of the rollback; a failed [Commit] is returned as it is. *)
Definition WithTransaction {A} (fn : M A) : M A := fun s =>
  match Beginx s with
  | (Err e, s1) => (Err e, s1)
  | (Ok _, s1) =>
      match fn s1 with
      | (Err e, s2) => (Err e, snd (Rollback s2))
      | (Ok a, s2) =>
          match Commit s2 with
          | (Err e, s3) => (Err e, s3)
          | (Ok _, s3) => (Ok a, s3)
          end
      end
  end.

(** [ConcertSessionRepository.GetConcertSessionByID]: [r.db.Get] on the
    pool; [sql.ErrNoRows] becomes [(nil, nil)]. *)
Definition GetConcertSessionByID (id : Z) : M (option models.ConcertSession.t) :=
  fun s =>
    let s := record (Pool, SelectSession id) s in
    match get_session_err env with
    | Some e => (Err e, s)
    | None =>
        match select_session id (concert_sessions (committed s)) with
        | None => (Ok None, s)
        | Some row => (Ok (Some (db.ConcertSession.ToConcertSession row)), s)
        end
    end.

(** [TicketRepository.GetAvailableTicketsBySessionID]: [r.GetDB().Select]
    on the pool. *)
Definition GetAvailableTicketsBySessionID (sessionID numberOfTickets : Z)
  : M (list models.Ticket.t) :=
  fun s =>
    let s := record (Pool, SelectAvailableForUpdate sessionID numberOfTickets) s in
    match select_err env with
    | Some e => (Err e, s)
    | None =>
        match select_available sessionID numberOfTickets (tickets (committed s)) with
        | Err e => (Err e, s)
        | Ok ts => (Ok ts, s)
        end
    end.

(** [OrderRepository.CreateOrder]:
    INSERT INTO orders (status, total_price) VALUES ($1, $2)
    RETURNING id, created_at, status, total_price
    on the transaction; the returned columns overwrite the struct. *)
Definition CreateOrder (order : models.Order.t) : M models.Order.t :=
  fun s =>
    let s := record (InTx, InsertOrder (models.Order.Status order)
                             (models.Order.TotalPrice order)) s in
    match insert_err env, pending s with
    | Some e, _ => (Err e, s)
    | None, None => (Err tx_closed, s)
    | None, Some ws =>
        if (50 <? Z.of_nat (String.length (models.Order.Status order)))
        then (Err "pq: value too long for type character varying(50)", s)
        else if existsb (fun o => db.Order.ID o =? order_seq env)
                  (orders (view (committed s) ws))
        then (Err "pq: duplicate key value violates unique constraint", s)
        else
          match numeric_10_2 (models.Order.TotalPrice order) with
          | None => (Err "pq: numeric field overflow", s)
          | Some total =>
              let row := db.Order.mk (order_seq env) (now_ms env)
                           (models.Order.Status order) total in
              (Ok (models.Order.mk (db.Order.ID row) (db.Order.CreatedAt row)
                     (db.Order.Status row) (db.Order.TotalPrice row)),
               mkConn (committed s) (Some (ws ++ [InsertedOrder row])) (log s))
          end
    end.

(** One iteration of the loop of [UpdateTicketStatuses]:
    [tx.Exec(query, status, ticket.ID)], the [i]-th of the call. *)
Definition Exec_update (i : nat) (status : string) (id : uuid.UUID) : M unit :=
  fun s =>
    let s := record (InTx, UpdateTicketStatus status id) s in
    match exec_err env i, pending s with
    | Some e, _ => (Err e, s)
    | None, None => (Err tx_closed, s)
    | None, Some ws =>
        if update_refused status id (tickets (view (committed s) ws))
        then (Err "pq: new row violates check constraint tickets_status_check", s)
        else (Ok tt, mkConn (committed s) (Some (ws ++ [UpdatedTicket status id]))
                       (log s))
    end.

Fixpoint UpdateTicketStatuses_from (i : nat) (tickets : list models.Ticket.t)
    (status : string) : M unit :=
  match tickets with
  | [] => ret tt
  | ticket :: rest =>
      Exec_update i status (models.Ticket.ID ticket) ;;;
      UpdateTicketStatuses_from (S i) rest status
  end.

(** [TicketRepository.UpdateTicketStatuses] *)
Definition UpdateTicketStatuses (tickets : list models.Ticket.t)
    (status : string) : M unit :=
  UpdateTicketStatuses_from 0 tickets status.

End Repository.
End repository.

(* ================================================================= *)
(** * internal/service *)

Module service.
Import sql repository.

Record CreateOrderRequest := mkRequest {
  UserID : Z;
  ConcertSessionID : Z;
  NumberOfTickets : Z }.

Record CreateOrderResponse := mkResponse {
  OrderID : Z;
  Status : string;
  TicketIDs : list string;
  TotalPrice : decimal.Decimal;
  CreatedAt : Z }.

Section Service.
Variable env : Env.

(** The closure passed to [WithTransaction].  [decimal.Mul] can only
    panic on an exponent outside [int32], which a scanned price never
    has; the panic is kept as a failure of the body. *)
Definition CreateOrder_tx (req : CreateOrderRequest)
  : M (models.Order.t * list models.Ticket.t) :=
  concertSession <- GetConcertSessionByID env (ConcertSessionID req) ;;
  match concertSession with
  | None => fail "concert session not found"
  | Some concertSession =>
      tickets <- GetAvailableTicketsBySessionID env
                   (ConcertSessionID req) (NumberOfTickets req) ;;
      if (List.length tickets =? 0)%nat then fail "no tickets available"
      else
        match decimal.Mul (decimal.NewFromInt (Z.of_nat (List.length tickets)))
                (models.ConcertSession.Price concertSession) with
        | None => fail "panic: exponent overflows an int32!"
        | Some total =>
            order <- repository.CreateOrder env
                       (models.Order.mk 0 0 "pending" total) ;;
            UpdateTicketStatuses env tickets "pending" ;;;
            ret (order, tickets)
        end
  end.

(** [OrderService.CreateOrder]; a nil request is [None]. *)
Definition CreateOrder (req : option CreateOrderRequest) : M CreateOrderResponse :=
  match req with
  | None => fail "request cannot be nil"
  | Some req =>
      if NumberOfTickets req <=? 0
      then fail "number of tickets must be greater than 0"
      else if NumberOfTickets req >? 3
      then fail "maximum 3 tickets allowed per order"
      else
        r <- WithTransaction env (CreateOrder_tx req) ;;
        let '(order, tickets) := r in
        ret (mkResponse
               (models.Order.ID order)
               (models.Order.Status order)
               (map (fun ticket => uuid.String (models.Ticket.ID ticket)) tickets)
               (models.Order.TotalPrice order)
               (models.Order.CreatedAt order))
  end.

End Service.
End service.

(* ================================================================= *)
(** * internal/handler *)

Module codes.
Inductive Code := InvalidArgument | NotFound | ResourceExhausted | Internal.
End codes.

Module api.

(** The generated protobuf messages; the integer fields are [int32],
    [total_price] is a [double], [created_at] a timestamp of which only
    the seconds are set. *)
Record CreateOrderRequest := mkRequest {
  UserId : Z;
  ConcertSessionId : Z;
  NumberOfTickets : Z }.

Record CreateOrderResponse := mkResponse {
  OrderId : Z;
  Status : string;
  TicketIds : list string;
  TotalPrice : spec_float;
  CreatedAt : Z }.

End api.

Module handler.
Import sql.

(** [status.Errorf(code, msg)] *)
Record Status := Errorf { Code : codes.Code; Message : string }.

Inductive reply :=
| Response (resp : api.CreateOrderResponse)
| Failure (st : Status).

(** The conversion [int32(x)] of a Go [int]. *)
Definition int32 (x : Z) : Z := (x + 2 ^ 31) mod 2 ^ 32 - 2 ^ 31.

Section Handler.
Variable env : Env.

(** [GRPCHandler.CreateOrder] (the logger calls are left out). *)
Definition CreateOrder (req : api.CreateOrderRequest) (s : Conn) : reply * Conn :=
  if api.UserId req <=? 0
  then (Failure (Errorf codes.InvalidArgument "user_id must be positive"), s)
  else if api.ConcertSessionId req <=? 0
  then (Failure (Errorf codes.InvalidArgument "concert_session_id must be positive"), s)
  else if api.NumberOfTickets req <=? 0
  then (Failure (Errorf codes.InvalidArgument "number_of_tickets must be positive"), s)
  else if api.NumberOfTickets req >? 3
  then (Failure (Errorf codes.InvalidArgument "maximum 3 tickets allowed per order"), s)
  else
    let serviceReq :=
      service.mkRequest (api.UserId req) (api.ConcertSessionId req)
        (api.NumberOfTickets req) in
    match service.CreateOrder env (Some serviceReq) s with
    | (Err err, s') =>
        (Failure
           (if (err =? "concert session not found")%string
            then Errorf codes.NotFound "concert session not found"
            else if (err =? "no tickets available")%string
            then Errorf codes.ResourceExhausted "no tickets available"
            else if (err =? "request cannot be nil")%string
            then Errorf codes.InvalidArgument "request cannot be nil"
            else if (err =? "number of tickets must be greater than 0")%string
            then Errorf codes.InvalidArgument "number_of_tickets must be positive"
            else if (err =? "maximum 3 tickets allowed per order")%string
            then Errorf codes.InvalidArgument "maximum 3 tickets allowed per order"
            else Errorf codes.Internal ("failed to create order: " ++ err)%string),
         s')
    | (Ok serviceResp, s') =>
        (Response
           (api.mkResponse
              (int32 (service.OrderID serviceResp))
              (service.Status serviceResp)
              (service.TicketIDs serviceResp)
              (decimal.InexactFloat64 (service.TotalPrice serviceResp))
              (Z.quot (service.CreatedAt serviceResp) 1000)),
         s')
    end.

End Handler.
End handler.

(* ================================================================= *)
(** * Several calls at once *)

(** Calls of [OrderService.CreateOrder] that run at the same time share
    the committed tables and nothing else: each has its own transaction
    and takes its turn one statement at a time.  A call between two
    statements is a [Stage]; [advance] issues its next statement with the
    very functions of [repository], on the connection state made of the
    shared tables and the call's own transaction.

    The store is PostgreSQL at its default isolation level: a statement
    sees what is committed when it starts, and the writes of its own
    transaction; a row updated by an open transaction is locked until
    that transaction ends; a statement on the pool is a transaction of
    its own, which ends with the statement. *)
Module concurrent.
Import sql repository.

Inductive Stage :=
| AtBegin
| AtSession
| AtSelect (concertSession : models.ConcertSession.t)
| AtInsert (total : decimal.Decimal) (tickets : list models.Ticket.t)
| AtUpdate (order : models.Order.t) (tickets : list models.Ticket.t)
    (i : nat) (rest : list models.Ticket.t)
| AtCommit (order : models.Order.t) (tickets : list models.Ticket.t)
| AtRollback (err : error)
| Returned (r : result service.CreateOrderResponse).

Record Task := mkTask {
  env : Env;
  req : service.CreateOrderRequest;
  stage : Stage;
  writes : option (list Write);
  issued : list Call }.

(** The checks made before the transaction is opened. *)
Definition spawn (env : Env) (req : service.CreateOrderRequest) : Task :=
  mkTask env req
    (if service.NumberOfTickets req <=? 0
     then Returned (Err "number of tickets must be greater than 0")
     else if service.NumberOfTickets req >? 3
     then Returned (Err "maximum 3 tickets allowed per order")
     else AtBegin)
    None [].

Definition conn (d : DB) (t : Task) : Conn := mkConn d (writes t) (issued t).

Definition moved (t : Task) (st : Stage) (s : Conn) : Task * DB :=
  (mkTask (env t) (req t) st (pending s) (log s), committed s).

(** After the INSERT, and after each UPDATE: the loop goes on while
    tickets remain, then the closure returns nil and COMMIT is next. *)
Definition loop (order : models.Order.t) (tickets : list models.Ticket.t)
    (i : nat) (rest : list models.Ticket.t) : Stage :=
  match rest with
  | [] => AtCommit order tickets
  | _ :: _ => AtUpdate order tickets i rest
  end.

Definition reply (order : models.Order.t) (tickets : list models.Ticket.t)
  : service.CreateOrderResponse :=
  service.mkResponse
    (models.Order.ID order)
    (models.Order.Status order)
    (map (fun ticket => uuid.String (models.Ticket.ID ticket)) tickets)
    (models.Order.TotalPrice order)
    (models.Order.CreatedAt order).

(** One statement of one call. *)
Definition advance (d : DB) (t : Task) : Task * DB :=
  let s := conn d t in
  match stage t with
  | AtBegin =>
      match Beginx (env t) s with
      | (Ok _, s') => moved t AtSession s'
      | (Err e, s') => moved t (Returned (Err e)) s'
      end
  | AtSession =>
      match GetConcertSessionByID (env t) (service.ConcertSessionID (req t)) s with
      | (Ok (Some concertSession), s') => moved t (AtSelect concertSession) s'
      | (Ok None, s') => moved t (AtRollback "concert session not found") s'
      | (Err e, s') => moved t (AtRollback e) s'
      end
  | AtSelect concertSession =>
      match GetAvailableTicketsBySessionID (env t)
              (service.ConcertSessionID (req t)) (service.NumberOfTickets (req t)) s with
      | (Ok tickets, s') =>
          if (List.length tickets =? 0)%nat
          then moved t (AtRollback "no tickets available") s'
          else
            match decimal.Mul (decimal.NewFromInt (Z.of_nat (List.length tickets)))
                    (models.ConcertSession.Price concertSession) with
            | None => moved t (AtRollback "panic: exponent overflows an int32!") s'
            | Some total => moved t (AtInsert total tickets) s'
            end
      | (Err e, s') => moved t (AtRollback e) s'
      end
  | AtInsert total tickets =>
      match repository.CreateOrder (env t) (models.Order.mk 0 0 "pending" total) s with
      | (Ok order, s') => moved t (loop order tickets 0 tickets) s'
      | (Err e, s') => moved t (AtRollback e) s'
      end
  | AtUpdate order tickets i [] => moved t (AtCommit order tickets) s
  | AtUpdate order tickets i (ticket :: rest) =>
      match Exec_update (env t) i "pending" (models.Ticket.ID ticket) s with
      | (Ok _, s') => moved t (loop order tickets (S i) rest) s'
      | (Err e, s') => moved t (AtRollback e) s'
      end
  | AtCommit order tickets =>
      match Commit (env t) s with
      | (Ok _, s') => moved t (Returned (Ok (reply order tickets))) s'
      | (Err e, s') => moved t (Returned (Err e)) s'
      end
  | AtRollback e => moved t (Returned (Err e)) (snd (Rollback s))
  | Returned _ => (t, d)
  end.

(** A call left alone for [n] statements. *)
Fixpoint alone (n : nat) (d : DB) (t : Task) : Task * DB :=
  match n with
  | O => (t, d)
  | S n' => let '(t', d') := advance d t in alone n' d' t'
  end.

(** Row locks: an open transaction holds the rows it has updated until
    it commits or rolls back. *)
Definition holds (id : uuid.UUID) (t : Task) : bool :=
  match writes t with
  | None => false
  | Some ws =>
      existsb (fun w => match w with
                        | UpdatedTicket _ id' => N.eqb id' id
                        | InsertedOrder _ => false
                        end) ws
  end.

Definition held_by (others : list Task) (id : uuid.UUID) : bool :=
  existsb (holds id) others.

(** Whether the next statement of [t] would have to wait for another
    transaction: an UPDATE of a row another one holds, or the
    SELECT ... FOR UPDATE when a row it is about to return is held.  The
    locks of that SELECT are gone when it returns, since it runs on the
    pool and not on the transaction. *)
Definition waits (d : DB) (others : list Task) (t : Task) : bool :=
  match stage t with
  | AtUpdate _ _ _ (ticket :: _) => held_by others (models.Ticket.ID ticket)
  | AtSelect _ =>
      match select_available (service.ConcertSessionID (req t))
              (service.NumberOfTickets (req t)) (tickets d) with
      | Ok rows => existsb (fun r => held_by others (models.Ticket.ID r)) rows
      | Err _ => false
      end
  | _ => false
  end.

Record System := mkSystem { store : DB; calls : list Task }.

Definition finished (t : Task) : bool :=
  match stage t with Returned _ => true | _ => false end.

(** The call number [i] takes its turn; [None] when there is no such
    call, when it has returned, or when it has to wait. *)
Definition turn (i : nat) (sys : System) : option System :=
  match nth_error (calls sys) i with
  | None => None
  | Some t =>
      let others := firstn i (calls sys) ++ skipn (S i) (calls sys) in
      if finished t || waits (store sys) others t then None
      else
        let '(t', d') := advance (store sys) t in
        Some (mkSystem d' (firstn i (calls sys) ++ [t'] ++ skipn (S i) (calls sys)))
  end.

Fixpoint run (schedule : list nat) (sys : System) : option System :=
  match schedule with
  | [] => Some sys
  | i :: schedule' =>
      match turn i sys with
      | None => None
      | Some sys' => run schedule' sys'
      end
  end.

(** A call at stage [st] whose connection state is [s]. *)
Definition task_of (env : Env) (req : service.CreateOrderRequest) (st : Stage)
    (s : Conn) : Task :=
  mkTask env req st (pending s) (log s).

(** What is left of [CreateOrder] once the order row is inserted: the
    rest of the UPDATE loop, then COMMIT, or ROLLBACK after a failure. *)
Definition finish_loop (env : Env) (order : models.Order.t)
    (tickets : list models.Ticket.t) (i : nat) (rest : list models.Ticket.t)
    (s : Conn) : result service.CreateOrderResponse * Conn :=
  match UpdateTicketStatuses_from env i rest "pending" s with
  | (Ok _, s2) =>
      match Commit env s2 with
      | (Ok _, s3) => (Ok (reply order tickets), s3)
      | (Err e, s3) => (Err e, s3)
      end
  | (Err e, s2) => (Err e, snd (Rollback s2))
  end.

(** The ticket identifiers handed out by the calls that returned an
    order. *)
Definition handed_out (sys : System) : list string :=
  flat_map (fun t => match stage t with
                     | Returned (Ok resp) => service.TicketIDs resp
                     | _ => []
                     end) (calls sys).

End concurrent.

(* ================================================================= *)
(** * Vocabulary of the statements below *)

Module spec.
Import sql repository.

(** [keeps c]: whatever [c] returns, the committed tables are the ones it
    started from.  Everything except a successful [Commit] is like
    that. *)
Definition keeps {A} (c : M A) : Prop :=
  forall s r s', c s = (r, s') -> committed s' = committed s.

(** Ascending order of ticket identifiers. *)
Definition by_id (a b : models.Ticket.t) : Prop :=
  (models.Ticket.ID a <= models.Ticket.ID b)%N.

(** The tickets table after the UPDATEs for [ids], one after the other. *)
Definition mark (st : string) (ids : list uuid.UUID) (ts : list models.Ticket.t)
  : list models.Ticket.t :=
  fold_left (fun ts id => map (set_status st id) ts) ids ts.

Definition ids_of (ts : list models.Ticket.t) : list uuid.UUID :=
  map models.Ticket.ID ts.

(** The rows of [tickets] that are available for a session. *)
Definition available (sessionID : Z) (ts : list models.Ticket.t)
  : list models.Ticket.t :=
  filter (available_in sessionID) ts.

(** What the schema guarantees of a price read from [concert_sessions]:
    a [DECIMAL(10,2)] value, scanned with two decimal places. *)
Definition price_ok (p : decimal.Decimal) : Prop :=
  decimal.exp p = -2 /\ Z.abs (decimal.value p) < 10 ^ 10.

End spec.

(* ================================================================= *)
(** * internal/migrations *)

(** [MigrationManager] against a store of which two things are kept:
    the rows of [schema_migrations] (absent until the table is created)
    and the scripts that were committed, in order.  What a script does
    to the other tables is not looked into; it is taken not to touch
    [schema_migrations].  Any statement may fail: the [k]-th statement
    issued fails when the oracle says so. *)
Module migrations.

Definition error := sql.error.
Definition result := sql.result.

Record Migration := mkMigration {
  Version : Z;
  Name : string;
  UpSQL : string;
  DownSQL : string;
  CreatedAt : Z }.

Module MigrationStatus.
Record t := mk { Version : Z; Name : string; Applied : bool; CreatedAt : Z }.
End MigrationStatus.

Inductive Stmt :=
| CreateTable
| SelectVersions
| Begin
| Exec (script : string)
| InsertVersion (version : Z)
| DeleteVersion (version : Z)
| Commit
| Rollback.

Record Tables := mkTables {
  schema_migrations : option (list Z);
  ran : list string }.

Inductive Level := InfoLevel | ErrorLevel.

(** The committed tables, the working copy of the open transaction, the
    statements sent so far and the lines handed to the logger. *)
Record World := mkWorld {
  tables : Tables;
  tx : option Tables;
  statements : list Stmt;
  logged : list (Level * string) }.

Definition Faults := nat -> option error.

Definition M (A : Type) : Type := World -> result A * World.

Definition ret {A} (a : A) : M A := fun w => (sql.Ok a, w).

Definition bind {A B} (c : M A) (k : A -> M B) : M B :=
  fun w =>
    match c w with
    | (sql.Ok a, w') => k a w'
    | (sql.Err e, w') => (sql.Err e, w')
    end.

(** [if err != nil { return fmt.Errorf(prefix + ": %w", err) }] *)
Definition wrap {A} (prefix : string) (c : M A) : M A :=
  fun w =>
    match c w with
    | (sql.Ok a, w') => (sql.Ok a, w')
    | (sql.Err e, w') => (sql.Err (prefix ++ ": " ++ e)%string, w')
    end.

Declare Scope mig_scope.
Delimit Scope mig_scope with mig.
Notation "x <- c ;; k" := (bind c (fun x => k))
  (at level 100, c at next level, right associativity) : mig_scope.
Notation "c ;;; k" := (bind c (fun _ => k))
  (at level 100, k at level 200, right associativity) : mig_scope.
Open Scope mig_scope.

(** [%d] of an integer. *)
Definition itoa (z : Z) : string := NilZero.string_of_int (Z.to_int z).

(** [%d_%s] of a migration. *)
Definition label (m : Migration) : string :=
  (itoa (Version m) ++ "_" ++ Name m)%string.

Definition Infof (line : string) : M unit :=
  fun w => (sql.Ok tt, mkWorld (tables w) (tx w) (statements w)
                     (logged w ++ [(InfoLevel, line)])).

Definition Errorf (line : string) (w : World) : World :=
  mkWorld (tables w) (tx w) (statements w) (logged w ++ [(ErrorLevel, line)]).

Definition no_table : error := "pq: relation schema_migrations does not exist".

Definition ErrTxDone : error :=
  "sql: transaction has already been committed or rolled back".

Section Manager.
Variable faults : Faults.

(** A statement goes out; the oracle decides whether the store answers
    with an error of its own. *)
Definition send (st : Stmt) : M unit :=
  fun w =>
    let w' := mkWorld (tables w) (tx w) (statements w ++ [st]) (logged w) in
    match faults (List.length (statements w)) with
    | Some e => (sql.Err e, w')
    | None => (sql.Ok tt, w')
    end.

(** [InitializeMigrationTable]: CREATE TABLE IF NOT EXISTS. *)
Definition InitializeMigrationTable : M unit :=
  send CreateTable ;;;
  fun w =>
    (sql.Ok tt,
     mkWorld
       (mkTables
          (Some (match schema_migrations (tables w) with
                 | Some rows => rows
                 | None => []
                 end))
          (ran (tables w)))
       (tx w) (statements w) (logged w)).

(** [GetAppliedMigrations]: the versions in the table; the Go map is
    the list of its keys. *)
Definition GetAppliedMigrations : M (list Z) :=
  send SelectVersions ;;;
  fun w =>
    match schema_migrations (tables w) with
    | None => (sql.Err no_table, w)
    | Some rows => (sql.Ok rows, w)
    end.

(** [applied[version]] *)
Definition is_applied (applied : list Z) (version : Z) : bool :=
  existsb (Z.eqb version) applied.

(** [mm.db.Begin()] *)
Definition db_Begin : M unit :=
  send Begin ;;;
  fun w => (sql.Ok tt, mkWorld (tables w) (Some (tables w)) (statements w) (logged w)).

(** [tx.Exec] of a migration script. *)
Definition tx_Exec_script (script : string) : M unit :=
  send (Exec script) ;;;
  fun w =>
    match tx w with
    | None => (sql.Err ErrTxDone, w)
    | Some t =>
        (sql.Ok tt, mkWorld (tables w)
                  (Some (mkTables (schema_migrations t) (ran t ++ [script])))
                  (statements w) (logged w))
    end.

(** INSERT INTO schema_migrations (version, applied_at) VALUES ($1, NOW()) *)
Definition tx_Exec_insert (version : Z) : M unit :=
  send (InsertVersion version) ;;;
  fun w =>
    match tx w with
    | None => (sql.Err ErrTxDone, w)
    | Some t =>
        match schema_migrations t with
        | None => (sql.Err no_table, w)
        | Some rows =>
            if is_applied rows version
            then (sql.Err "pq: duplicate key value violates unique constraint", w)
            else (sql.Ok tt, mkWorld (tables w)
                           (Some (mkTables (Some (rows ++ [version])) (ran t)))
                           (statements w) (logged w))
        end
    end.

(** DELETE FROM schema_migrations WHERE version = $1 *)
Definition tx_Exec_delete (version : Z) : M unit :=
  send (DeleteVersion version) ;;;
  fun w =>
    match tx w with
    | None => (sql.Err ErrTxDone, w)
    | Some t =>
        match schema_migrations t with
        | None => (sql.Err no_table, w)
        | Some rows =>
            (sql.Ok tt, mkWorld (tables w)
                      (Some (mkTables
                               (Some (filter (fun v => negb (Z.eqb v version)) rows))
                               (ran t)))
                      (statements w) (logged w))
        end
    end.

(** [tx.Commit()]: whether it succeeds or not, the transaction is over. *)
Definition tx_Commit : M unit :=
  fun w =>
    match tx w with
    | None => (sql.Err ErrTxDone, w)
    | Some t =>
        match send Commit w with
        | (sql.Ok _, w') => (sql.Ok tt, mkWorld t None (statements w') (logged w'))
        | (sql.Err e, w') =>
            (sql.Err e, mkWorld (tables w') None (statements w') (logged w'))
        end
    end.

(** [tx.Rollback()]: on a transaction that is over nothing is sent and
    [ErrTxDone] comes back. *)
Definition tx_Rollback : M unit :=
  fun w =>
    match tx w with
    | None => (sql.Err ErrTxDone, w)
    | Some _ =>
        match send Rollback w with
        | (r, w') => (r, mkWorld (tables w') None (statements w') (logged w'))
        end
    end.

(** [defer func() { if err := tx.Rollback(); err != nil { logger.Errorf(...) } }()] *)
Definition with_deferred_rollback {A} (body : M A) : M A :=
  fun w =>
    match body w with
    | (r, w1) =>
        match tx_Rollback w1 with
        | (sql.Ok _, w2) => (r, w2)
        | (sql.Err e, w2) =>
            (r, Errorf ("Failed to rollback transaction: " ++ e)%string w2)
        end
    end.

(** [ApplyMigration] *)
Definition ApplyMigration (migration : Migration) : M unit :=
  applied <- GetAppliedMigrations ;;
  if is_applied applied (Version migration)
  then Infof ("Migration " ++ label migration ++ " already applied, skipping")%string
  else
    db_Begin ;;;
    with_deferred_rollback
      (wrap ("failed to apply migration " ++ label migration)%string
         (tx_Exec_script (UpSQL migration)) ;;;
       wrap ("failed to record migration " ++ label migration)%string
         (tx_Exec_insert (Version migration)) ;;;
       tx_Commit ;;;
       Infof ("Applied migration " ++ label migration)%string).

(** [RollbackMigration] *)
Definition RollbackMigration (migration : Migration) : M unit :=
  applied <- GetAppliedMigrations ;;
  if negb (is_applied applied (Version migration))
  then Infof ("Migration " ++ label migration ++ " not applied, skipping rollback")%string
  else
    db_Begin ;;;
    with_deferred_rollback
      (wrap ("failed to rollback migration " ++ label migration)%string
         (tx_Exec_script (DownSQL migration)) ;;;
       wrap ("failed to remove migration record " ++ label migration)%string
         (tx_Exec_delete (Version migration)) ;;;
       tx_Commit ;;;
       Infof ("Rolled back migration " ++ label migration)%string).

(** The loop of [MigrateUp]; [applied] is the snapshot taken before it. *)
Fixpoint MigrateUp_loop (applied : list Z) (migrations : list Migration) : M unit :=
  match migrations with
  | [] => ret tt
  | migration :: rest =>
      (if negb (is_applied applied (Version migration))
       then ApplyMigration migration
       else ret tt) ;;;
      MigrateUp_loop applied rest
  end.

(** [MigrateUp] *)
Definition MigrateUp (migrations : list Migration) : M unit :=
  wrap "failed to initialize migration table" InitializeMigrationTable ;;;
  applied <- GetAppliedMigrations ;;
  MigrateUp_loop applied migrations ;;;
  Infof "All migrations applied successfully".

(** The loop of [MigrateDown]; it returns [count]. *)
Fixpoint MigrateDown_loop (steps count : Z) (appliedMigrations : list Migration)
  : M Z :=
  match appliedMigrations with
  | [] => ret count
  | migration :: rest =>
      if count >=? steps then ret count
      else
        RollbackMigration migration ;;;
        MigrateDown_loop steps (count + 1) rest
  end.

(** [sort.Slice(x, less)] is taken as given: [sort_Slice less x] is what
    it leaves in [x]. *)
Variable sort_Slice :
  (Migration -> Migration -> bool) -> list Migration -> list Migration.

(** [MigrateDown] *)
Definition MigrateDown (migrations : list Migration) (steps : Z) : M unit :=
  wrap "failed to initialize migration table" InitializeMigrationTable ;;;
  applied <- GetAppliedMigrations ;;
  let appliedMigrations :=
    filter (fun migration => is_applied applied (Version migration)) migrations in
  let appliedMigrations :=
    sort_Slice (fun a b => Version a >? Version b) appliedMigrations in
  count <- MigrateDown_loop steps 0 appliedMigrations ;;
  Infof ("Rolled back " ++ itoa count ++ " migrations")%string.

(** [GetMigrationStatus] *)
Definition GetMigrationStatus (migrations : list Migration)
  : M (list MigrationStatus.t) :=
  applied <- GetAppliedMigrations ;;
  ret (map (fun migration =>
              MigrationStatus.mk (Version migration) (Name migration)
                (is_applied applied (Version migration)) (CreatedAt migration))
         migrations).

End Manager.

(** A store that has seen nothing yet, and one where the table exists
    with the given versions. *)
Definition fresh : World := mkWorld (mkTables None []) None [] [].

Definition at_versions (rows : list Z) : World :=
  mkWorld (mkTables (Some rows) []) None [] [].

Definition healthy : Faults := fun _ => None.

(** An insertion sort, as one thing [sort.Slice] may do. *)
Fixpoint insert_by (less : Migration -> Migration -> bool) (m : Migration)
    (l : list Migration) : list Migration :=
  match l with
  | [] => [m]
  | x :: l' => if less x m then x :: insert_by less m l' else m :: l
  end.

Fixpoint insertion_sort (less : Migration -> Migration -> bool)
    (l : list Migration) : list Migration :=
  match l with
  | [] => []
  | x :: l' => insert_by less x (insertion_sort less l')
  end.

(** The two migrations of the repository, with their scripts named
    rather than spelled out. *)
Definition initial_schema : Migration :=
  mkMigration 1 "initial_schema" "001 up" "001 down" 0.

Definition initial_data : Migration :=
  mkMigration 2 "initial_data" "002 up" "002 down" 0.

End migrations.

(* ================================================================= *)
(** * Vocabulary for the migrations *)

Module migration_spec.
Import migrations.

(** The rows of [schema_migrations], none while the table is absent. *)
Definition rows_of (t : Tables) : list Z :=
  match schema_migrations t with
  | Some rows => rows
  | None => []
  end.

(** The migrations a run of [MigrateUp] has to apply, in order, when
    [rows] are the versions already recorded: a version is applied
    once, also when two loaded migrations carry it. *)
Fixpoint todo (rows : list Z) (migrations : list Migration) : list Migration :=
  match migrations with
  | [] => []
  | m :: rest =>
      if is_applied rows (Version m) then todo rows rest
      else m :: todo (rows ++ [Version m]) rest
  end.

(** The rows left when the versions of [gone] are deleted. *)
Definition without (gone : list Migration) (rows : list Z) : list Z :=
  filter (fun v => negb (existsb (Z.eqb v) (map Version gone))) rows.

(** Newest first. *)
Definition newer (a b : Migration) : bool := Version a >? Version b.

End migration_spec.

(* ================================================================= *)
(** * What the schema promises of the tables *)

Module schema.
Import sql.

(** [id UUID PRIMARY KEY] on [tickets]. *)
Definition ticket_ids_unique (d : DB) : Prop :=
  NoDup (map models.Ticket.ID (tickets d)).

(** [id SERIAL PRIMARY KEY] on [orders]. *)
Definition order_ids_unique (d : DB) : Prop :=
  NoDup (map db.Order.ID (orders d)).

(** [CHECK (status IN ('pending', 'sold', 'available'))] on [tickets]. *)
Definition statuses_checked (d : DB) : Prop :=
  Forall (fun t => status_allowed (models.Ticket.Status t) = true) (tickets d).

Definition ok (d : DB) : Prop :=
  ticket_ids_unique d /\ order_ids_unique d /\ statuses_checked d.

(** A [UUID] is 16 bytes. *)
Definition ids_are_uuids (d : DB) : Prop :=
  Forall (fun t => (models.Ticket.ID t < 2 ^ 128)%N) (tickets d).

(** The rows a selection [sel] leaves behind. *)
Definition left_by (sel : list models.Ticket.t) (t : models.Ticket.t) : bool :=
  negb (existsb (N.eqb (models.Ticket.ID t)) (spec.ids_of sel)).

(** Reading a UUID string back: the digits without the dashes, and the
    value of a digit. *)
Definition undash (l : list ascii) : list ascii :=
  firstn 8 l ++ firstn 4 (skipn 9 l) ++ firstn 4 (skipn 14 l)
    ++ firstn 4 (skipn 19 l) ++ skipn 24 l.

Definition digit_value (c : ascii) : N :=
  match c with
  | "0" => 0 | "1" => 1 | "2" => 2 | "3" => 3 | "4" => 4 | "5" => 5
  | "6" => 6 | "7" => 7 | "8" => 8 | "9" => 9 | "a" => 10 | "b" => 11
  | "c" => 12 | "d" => 13 | "e" => 14 | _ => 15
  end%char%N.

Fixpoint list_of_string (s : string) : list ascii :=
  match s with
  | EmptyString => []
  | String c s' => c :: list_of_string s'
  end.

End schema.

(* ================================================================= *)
(** * Concrete stores used in the examples *)

Module scenario.
Import sql.

(** A store that never fails; the next order gets id 1. *)
Definition healthy : Env :=
  mkEnv None None None None (fun _ => None) None 1 1735689600123.

(** The same store a moment later; the next order gets id 2. *)
Definition healthy_next : Env :=
  mkEnv None None None None (fun _ => None) None 2 1735689600456.

(** The second UPDATE of the transaction fails. *)
Definition second_update_fails : Env :=
  mkEnv None None None None
    (fun i => match i with 1%nat => Some "pq: deadlock detected" | _ => None end)
    None 1 1735689600123.

Definition session (id cents : Z) : db.ConcertSession.t :=
  db.ConcertSession.mk id 1 1735689600000 1735700400000 "Main Arena" 100
    (decimal.mkDecimal cents (-2)).

Definition ticket (id : N) (sessionID : Z) (status : string) : models.Ticket.t :=
  models.Ticket.mk id sessionID status.

(** Session 1 at 10.00 with five available tickets among others. *)
Definition five_available : DB :=
  mkDB [session 1 1000]
    [ticket 5 1 "available"; ticket 3 1 "available"; ticket 9 2 "available";
     ticket 1 1 "sold"; ticket 4 1 "available"; ticket 7 1 "available";
     ticket 2 1 "available"]
    [].

(** Session 1 at 99.99 with a single available ticket. *)
Definition one_available : DB :=
  mkDB [session 1 9999] [ticket 5 1 "available"] [].

(** Session 1 at 99.99 with nothing left. *)
Definition none_available : DB :=
  mkDB [session 1 9999] [ticket 5 1 "sold"] [].

(** A fresh connection pool on the given tables. *)
Definition fresh (d : DB) : Conn := mkConn d None [].

(** The same pool with a transaction just begun. *)
Definition begun (d : DB) : Conn := mkConn d (Some []) [(Pool, Begin)].

End scenario.

(* ================================================================= *)
(** * Properties *)

Import sql repository.
Import spec.
Import schema.

(** ** Code that does not touch the committed tables *)


Create HintDb keeps_db.

Lemma keeps_ret {A} (a : A) : keeps (ret a).
Proof. intros s r s' H. inversion H. reflexivity. Qed.

Lemma keeps_fail {A} (e : error) : keeps (@fail A e).
Proof. intros s r s' H. inversion H. reflexivity. Qed.

Lemma keeps_bind {A B} (c : M A) (k : A -> M B) :
  keeps c -> (forall a, keeps (k a)) -> keeps (bind c k).
Proof.
  intros Hc Hk s r s' H. unfold bind in H.
  destruct (c s) as [[a|e] s1] eqn:E.
  - apply Hk in H. apply Hc in E. congruence.
  - inversion H; subst. eapply Hc; eauto.
Qed.

Lemma keeps_Beginx env : keeps (Beginx env).
Proof.
  intros s r s' H. unfold Beginx in H.
  destruct (begin_err env); inversion H; reflexivity.
Qed.

Lemma keeps_Rollback : keeps Rollback.
Proof. intros s r s' H. inversion H. reflexivity. Qed.

Lemma keeps_GetConcertSessionByID env id : keeps (GetConcertSessionByID env id).
Proof.
  intros s r s' H. unfold GetConcertSessionByID in H.
  destruct (get_session_err env); [inversion H; reflexivity|].
  destruct (select_session _ _); inversion H; reflexivity.
Qed.

Lemma keeps_GetAvailableTicketsBySessionID env sid n :
  keeps (GetAvailableTicketsBySessionID env sid n).
Proof.
  intros s r s' H. unfold GetAvailableTicketsBySessionID in H.
  destruct (select_err env); [inversion H; reflexivity|].
  destruct (select_available _ _ _); inversion H; reflexivity.
Qed.

Lemma keeps_CreateOrder env order : keeps (repository.CreateOrder env order).
Proof.
  intros s r s' H. unfold repository.CreateOrder in H.
  destruct (insert_err env); [inversion H; reflexivity|].
  cbn [pending record] in H.
  destruct (pending s); [|inversion H; reflexivity].
  destruct (50 <? _); [inversion H; reflexivity|].
  destruct (existsb _ _); [inversion H; reflexivity|].
  destruct (numeric_10_2 _); inversion H; reflexivity.
Qed.

Lemma keeps_Exec_update env i status id : keeps (Exec_update env i status id).
Proof.
  intros s r s' H. unfold Exec_update in H.
  destruct (exec_err env i); [inversion H; reflexivity|].
  cbn [pending record] in H.
  destruct (pending s); [|inversion H; reflexivity].
  destruct (update_refused _ _ _); inversion H; reflexivity.
Qed.

Lemma keeps_UpdateTicketStatuses_from env tickets status :
  forall i, keeps (UpdateTicketStatuses_from env i tickets status).
Proof.
  induction tickets as [|t ts IH]; intro i; cbn.
  - apply keeps_ret.
  - apply keeps_bind; [apply keeps_Exec_update | intros _; apply IH].
Qed.

Lemma keeps_UpdateTicketStatuses env tickets status :
  keeps (UpdateTicketStatuses env tickets status).
Proof. apply keeps_UpdateTicketStatuses_from. Qed.

#[export] Hint Resolve keeps_ret keeps_fail keeps_Beginx keeps_Rollback
  keeps_GetConcertSessionByID keeps_GetAvailableTicketsBySessionID
  keeps_CreateOrder keeps_UpdateTicketStatuses : keeps_db.

Lemma keeps_CreateOrder_tx env req : keeps (service.CreateOrder_tx env req).
Proof.
  unfold service.CreateOrder_tx.
  apply keeps_bind; [auto with keeps_db|]. intros [cs|]; [|auto with keeps_db].
  apply keeps_bind; [auto with keeps_db|]. intros tickets.
  destruct (_ =? _)%nat; [auto with keeps_db|].
  destruct (decimal.Mul _ _); [|auto with keeps_db].
  apply keeps_bind; [auto with keeps_db|]. intros order.
  apply keeps_bind; auto with keeps_db.
Qed.

(** A transaction that fails, at [Begin], in its body or at [Commit],
    leaves the committed tables alone and leaves no transaction open. *)
Lemma WithTransaction_failure {A} env (fn : M A) s e s' :
  keeps fn ->
  WithTransaction env fn s = (Err e, s') ->
  committed s' = committed s /\ (pending s = None -> pending s' = None).
Proof.
  intros Hfn H. unfold WithTransaction in H.
  destruct (Beginx env s) as [[u|e1] s1] eqn:EB.
  - pose proof (keeps_Beginx env _ _ _ EB) as HB.
    destruct (fn s1) as [[a|e2] s2] eqn:EF.
    + pose proof (Hfn _ _ _ EF) as HF.
      unfold Commit in H.
      destruct (commit_err env).
      * inversion H; subst; cbn. split; [congruence | reflexivity].
      * cbn [pending record] in H. destruct (pending s2) eqn:EP; inversion H.
        subst; cbn. split; [congruence | auto].
    + pose proof (Hfn _ _ _ EF) as HF.
      inversion H; subst; cbn. split; [congruence | reflexivity].
  - inversion H; subst. unfold Beginx in EB.
    destruct (begin_err env); inversion EB; subst; cbn. split; auto.
Qed.

Lemma service_CreateOrder_failure env req s e s' :
  service.CreateOrder env req s = (Err e, s') ->
  committed s' = committed s /\ (pending s = None -> pending s' = None).
Proof.
  intros H. unfold service.CreateOrder in H.
  destruct req as [req|]; [|inversion H; subst; auto].
  destruct (_ <=? 0); [inversion H; subst; auto|].
  destruct (_ >? 3); [inversion H; subst; auto|].
  unfold bind in H.
  destruct (WithTransaction env _ s) as [[[order tickets]|e1] s1] eqn:EW.
  - inversion H.
  - inversion H; subst.
    eapply WithTransaction_failure; eauto using keeps_CreateOrder_tx.
Qed.

(** ** Failure leaves the store as it was *)

(** C3: whenever [CreateOrder] answers with an error, at the handler or
    at the service, for whatever reason (validation, missing session, no
    ticket, a failing statement, a failing BEGIN or COMMIT), the
    committed tables are exactly the ones before the call: no order row
    and no ticket status change persists, and no transaction stays
    open. *)
Theorem CreateOrder_error_restores_store :
  forall env req s st s',
    handler.CreateOrder env req s = (handler.Failure st, s') ->
    committed s' = committed s /\ (pending s = None -> pending s' = None).
Proof.
  intros env req s st s' H. unfold handler.CreateOrder in H.
  destruct (api.UserId req <=? 0); [inversion H; subst; auto|].
  destruct (api.ConcertSessionId req <=? 0); [inversion H; subst; auto|].
  destruct (api.NumberOfTickets req <=? 0); [inversion H; subst; auto|].
  destruct (api.NumberOfTickets req >? 3); [inversion H; subst; auto|].
  destruct (service.CreateOrder env _ s) as [[resp|e] s1] eqn:ES.
  - inversion H.
  - inversion H; subst. eapply service_CreateOrder_failure; eauto.
Qed.

(** The order row is inserted, the first ticket is updated, the second
    UPDATE fails: everything is rolled back. *)
Lemma CreateOrder_error_restores_store_witness :
  exists st s',
    handler.CreateOrder scenario.second_update_fails (api.mkRequest 7 1 3)
      (scenario.fresh scenario.five_available) = (handler.Failure st, s')
    /\ In (InTx, InsertOrder "pending" (decimal.mkDecimal 3000 (-2))) (log s')
    /\ committed s' = scenario.five_available
    /\ pending s' = None.
Proof.
  destruct (handler.CreateOrder scenario.second_update_fails (api.mkRequest 7 1 3)
              (scenario.fresh scenario.five_available)) as [[resp|st] s'] eqn:E.
  - vm_compute in E. discriminate E.
  - exists st, s'. split; [reflexivity|].
    destruct (CreateOrder_error_restores_store _ _ _ _ _ E) as [Hc Hp].
    split; [|split; [exact Hc | exact (Hp eq_refl)]].
    vm_compute in E. inversion E; subst. cbn. auto 10.
Defined.

(** ** Quantity bounds *)

(** C5: a request whose quantity is zero, negative or above 3 is
    answered with InvalidArgument and the connection state is returned
    untouched: no statement was issued (the log is the same) and nothing
    was stored.  The service applies the same bounds before it opens its
    transaction. *)
Theorem CreateOrder_quantity_out_of_bounds :
  forall env req s,
    api.NumberOfTickets req <= 0 \/ api.NumberOfTickets req > 3 ->
    (exists msg,
        handler.CreateOrder env req s
        = (handler.Failure (handler.Errorf codes.InvalidArgument msg), s))
    /\ (exists e,
        service.CreateOrder env
          (Some (service.mkRequest (api.UserId req) (api.ConcertSessionId req)
                   (api.NumberOfTickets req))) s = (Err e, s)).
Proof.
  intros env req s Hq. split.
  - unfold handler.CreateOrder.
    destruct (api.UserId req <=? 0); [eauto|].
    destruct (api.ConcertSessionId req <=? 0); [eauto|].
    destruct (Z.leb_spec (api.NumberOfTickets req) 0); [eauto|].
    destruct (Z.gtb_spec (api.NumberOfTickets req) 3); [eauto|].
    lia.
  - unfold service.CreateOrder; cbn [service.NumberOfTickets].
    destruct (Z.leb_spec (api.NumberOfTickets req) 0); [eexists; reflexivity|].
    destruct (Z.gtb_spec (api.NumberOfTickets req) 3); [eexists; reflexivity|].
    lia.
Qed.

Lemma CreateOrder_quantity_out_of_bounds_witness :
  (exists msg,
      handler.CreateOrder scenario.healthy (api.mkRequest 7 1 4)
        (scenario.fresh scenario.five_available)
      = (handler.Failure (handler.Errorf codes.InvalidArgument msg),
         scenario.fresh scenario.five_available))
  /\ (exists e,
      service.CreateOrder scenario.healthy (Some (service.mkRequest 7 1 4))
        (scenario.fresh scenario.five_available)
      = (Err e, scenario.fresh scenario.five_available)).
Proof.
  apply (CreateOrder_quantity_out_of_bounds scenario.healthy
           (api.mkRequest 7 1 4) (scenario.fresh scenario.five_available)).
  right. cbn. lia.
Defined.

(** ** The buyer plays no part *)

(** C9: the service never reads [UserID] and the handler only checks
    that it is positive, so two calls that differ in nothing but a
    positive buyer id give the same reply and leave the same connection
    state: the same committed tables and the same statements, whose only
    INSERT carries a status and a total price. *)
Theorem CreateOrder_independent_of_buyer :
  forall env s sessionID quantity buyer1 buyer2,
    0 < buyer1 -> 0 < buyer2 ->
    handler.CreateOrder env (api.mkRequest buyer1 sessionID quantity) s
    = handler.CreateOrder env (api.mkRequest buyer2 sessionID quantity) s.
Proof.
  intros env s sid q b1 b2 H1 H2.
  unfold handler.CreateOrder; cbn [api.UserId api.ConcertSessionId api.NumberOfTickets].
  destruct (Z.leb_spec b1 0); [lia|].
  destruct (Z.leb_spec b2 0); [lia|].
  reflexivity.
Qed.

Lemma CreateOrder_independent_of_buyer_witness :
  handler.CreateOrder scenario.healthy (api.mkRequest 7 1 3)
    (scenario.fresh scenario.five_available)
  = handler.CreateOrder scenario.healthy (api.mkRequest 8 1 3)
      (scenario.fresh scenario.five_available).
Proof.
  apply (CreateOrder_independent_of_buyer scenario.healthy
           (scenario.fresh scenario.five_available) 1 3 7 8); lia.
Defined.

(** ** A session that does not exist *)

Lemma select_session_absent id ss :
  (forall row, In row ss -> db.ConcertSession.ID row <> id) ->
  select_session id ss = None.
Proof.
  intros H. unfold select_session.
  destruct (find _ ss) as [row|] eqn:E; [|reflexivity].
  apply find_some in E. destruct E as [Hin Heq].
  apply Z.eqb_eq in Heq. exfalso. exact (H row Hin Heq).
Qed.

Lemma CreateOrder_tx_absent env req s :
  select_session (service.ConcertSessionID req) (concert_sessions (committed s)) = None ->
  service.CreateOrder_tx env req s
  = match get_session_err env with
    | Some e => (Err e, record (Pool, SelectSession (service.ConcertSessionID req)) s)
    | None => (Err "concert session not found",
               record (Pool, SelectSession (service.ConcertSessionID req)) s)
    end.
Proof.
  intros H. unfold service.CreateOrder_tx, bind, GetConcertSessionByID.
  destruct (get_session_err env); [reflexivity|].
  cbn [committed record]. rewrite H. reflexivity.
Qed.

(** C6: a request with valid arguments for a session id that no row of
    [concert_sessions] carries never succeeds and never changes the
    committed tables, whatever the storage layer does; and when BEGIN
    and the session query are answered, the reply is NotFound, the only
    statements issued are BEGIN, the lookup and ROLLBACK, and no
    transaction stays open. *)
Theorem CreateOrder_unknown_session :
  forall env req s,
    0 < api.UserId req ->
    0 < api.ConcertSessionId req ->
    1 <= api.NumberOfTickets req <= 3 ->
    (forall row, In row (concert_sessions (committed s)) ->
                 db.ConcertSession.ID row <> api.ConcertSessionId req) ->
    (exists st s',
        handler.CreateOrder env req s = (handler.Failure st, s')
        /\ committed s' = committed s)
    /\ (begin_err env = None -> get_session_err env = None ->
        handler.CreateOrder env req s
        = (handler.Failure (handler.Errorf codes.NotFound "concert session not found"),
           mkConn (committed s) None
             (log s ++ [(Pool, Begin)]
                    ++ [(Pool, SelectSession (api.ConcertSessionId req))]
                    ++ [(InTx, sql.Rollback)]))).
Proof.
  intros env req s Hu Hs Hn Habs.
  apply select_session_absent in Habs.
  assert (Hrun : forall s1,
             committed s1 = committed s ->
             service.CreateOrder_tx env
               (service.mkRequest (api.UserId req) (api.ConcertSessionId req)
                  (api.NumberOfTickets req)) s1
             = match get_session_err env with
               | Some e => (Err e, record (Pool, SelectSession (api.ConcertSessionId req)) s1)
               | None => (Err "concert session not found",
                          record (Pool, SelectSession (api.ConcertSessionId req)) s1)
               end).
  { intros s1 Hs1. apply CreateOrder_tx_absent. cbn. rewrite Hs1. exact Habs. }
  unfold handler.CreateOrder.
  destruct (Z.leb_spec (api.UserId req) 0); [lia|].
  destruct (Z.leb_spec (api.ConcertSessionId req) 0); [lia|].
  destruct (Z.leb_spec (api.NumberOfTickets req) 0); [lia|].
  destruct (Z.gtb_spec (api.NumberOfTickets req) 3); [lia|].
  unfold service.CreateOrder; cbn [service.NumberOfTickets].
  destruct (Z.leb_spec (api.NumberOfTickets req) 0); [lia|].
  destruct (Z.gtb_spec (api.NumberOfTickets req) 3); [lia|].
  unfold bind, WithTransaction, Beginx.
  destruct (begin_err env) as [eb|].
  - split; [|discriminate]. eexists _, _. split; reflexivity.
  - rewrite Hrun by reflexivity.
    destruct (get_session_err env) as [eg|].
    + split; [|discriminate]. eexists _, _. split; reflexivity.
    + split.
      * eexists _, _. split; reflexivity.
      * intros _ _. cbn. rewrite <- !app_assoc. reflexivity.
Qed.

Lemma CreateOrder_unknown_session_witness :
  handler.CreateOrder scenario.healthy (api.mkRequest 7 999 1)
    (scenario.fresh scenario.five_available)
  = (handler.Failure (handler.Errorf codes.NotFound "concert session not found"),
     mkConn scenario.five_available None
       [(Pool, Begin); (Pool, SelectSession 999); (InTx, sql.Rollback)]).
Proof.
  refine (proj2 (CreateOrder_unknown_session scenario.healthy (api.mkRequest 7 999 1)
            (scenario.fresh scenario.five_available) _ _ _ _) eq_refl eq_refl).
  - cbn; lia.
  - cbn; lia.
  - cbn; lia.
  - cbn. intros row [H|[]]. subst row. cbn. lia.
Defined.

(** ** The UPDATE loop *)

Lemma set_status_ID st id t :
  models.Ticket.ID (set_status st id t) = models.Ticket.ID t.
Proof. unfold set_status. destruct (N.eqb _ _); reflexivity. Qed.

Lemma set_status_SessionID st id t :
  models.Ticket.SessionID (set_status st id t) = models.Ticket.SessionID t.
Proof. unfold set_status. destruct (N.eqb _ _); reflexivity. Qed.

(** Closed form of a run of UPDATEs: a row is rewritten when its id is
    among the ones updated, and then only in its status. *)
Lemma mark_closed_form st ids :
  forall ts,
    spec.mark st ids ts
    = map (fun t => if existsb (N.eqb (models.Ticket.ID t)) ids
                    then models.Ticket.mk (models.Ticket.ID t)
                           (models.Ticket.SessionID t) st
                    else t) ts.
Proof.
  unfold spec.mark.
  induction ids as [|id ids IH]; intros ts; cbn [fold_left existsb].
  - rewrite <- (map_id ts) at 1. reflexivity.
  - rewrite IH, map_map. apply map_ext. intros t.
    rewrite set_status_ID, set_status_SessionID. unfold set_status.
    destruct (N.eqb (models.Ticket.ID t) id) eqn:E; cbn [orb].
    + destruct (existsb (N.eqb (models.Ticket.ID t)) ids); reflexivity.
    + reflexivity.
Qed.

Lemma view_app d ws1 ws2 : view d (ws1 ++ ws2) = view (view d ws1) ws2.
Proof. unfold view. apply fold_left_app. Qed.

(** The view after a run of UPDATEs. *)
Lemma view_updates st ids :
  forall d,
    view d (map (UpdatedTicket st) ids)
    = mkDB (concert_sessions d) (spec.mark st ids (sql.tickets d)) (orders d).
Proof.
  unfold view, spec.mark.
  induction ids as [|id ids IH]; intros d; cbn [map fold_left].
  - destruct d; reflexivity.
  - rewrite IH. reflexivity.
Qed.

(** Where the loop stands when it returns: the ids [done] have been
    updated in the open transaction, all of them when it returns nil. *)
Lemma UpdateTicketStatuses_from_pending env status :
  forall tickets i s ws r s',
    pending s = Some ws ->
    UpdateTicketStatuses_from env i tickets status s = (r, s') ->
    exists done rest,
      spec.ids_of tickets = done ++ rest
      /\ (r = Ok tt -> rest = [])
      /\ committed s' = committed s
      /\ pending s' = Some (ws ++ map (UpdatedTicket status) done).
Proof.
  intros tickets.
  induction tickets as [|t ts IH]; intros i s ws r s' Hp H; cbn in H.
  - inversion H; subst. exists [], []. repeat split; auto.
    rewrite Hp, app_nil_r. reflexivity.
  - unfold bind in H.
    destruct (Exec_update env i status (models.Ticket.ID t) s) as [[u|e] s1] eqn:E.
    + unfold Exec_update in E. cbn [pending record committed] in E. rewrite Hp in E.
      destruct (exec_err env i); [discriminate|].
      destruct (update_refused _ _ _); [discriminate|].
      inversion E; subst s1; clear E.
      eapply IH in H; [|reflexivity].
      destruct H as (done & rest & Hids & Hr & Hc & Hpend).
      exists (models.Ticket.ID t :: done), rest.
      split; [unfold spec.ids_of in *; cbn [map app]; now rewrite Hids|].
      split; [exact Hr|]. split; [exact Hc|].
      rewrite Hpend, <- app_assoc. reflexivity.
    + inversion H; subst r s'; clear H.
      exists [], (spec.ids_of (t :: ts)).
      assert (committed s1 = committed s /\ pending s1 = pending s) as [Hc Hq].
      { unfold Exec_update in E. cbn [pending record committed] in E. rewrite Hp in E.
        destruct (exec_err env i); [inversion E; subst; cbn; auto|].
        destruct (update_refused _ _ _); inversion E; subst; cbn; auto. }
      repeat split; auto; [discriminate|].
      rewrite Hq, Hp, app_nil_r. reflexivity.
Qed.

(** C10: run inside an open transaction, [UpdateTicketStatuses] changes
    nothing but the [tickets] table as that transaction sees it, keeps
    its rows in place with their [id] and [session_id], leaves every row
    whose id is not in the list exactly as it was, and, when it returns
    nil, has set the status of every row whose id is in the list. *)
Theorem UpdateTicketStatuses_touches_only_listed_status :
  forall env tickets status s ws r s',
    pending s = Some ws ->
    UpdateTicketStatuses env tickets status s = (r, s') ->
    exists ws',
      pending s' = Some ws'
      /\ committed s' = committed s
      /\ concert_sessions (view (committed s') ws')
         = concert_sessions (view (committed s) ws)
      /\ orders (view (committed s') ws') = orders (view (committed s) ws)
      /\ Forall2
           (fun old new =>
              models.Ticket.ID new = models.Ticket.ID old
              /\ models.Ticket.SessionID new = models.Ticket.SessionID old
              /\ (~ In (models.Ticket.ID old) (spec.ids_of tickets) -> new = old)
              /\ (r = Ok tt -> In (models.Ticket.ID old) (spec.ids_of tickets) ->
                  models.Ticket.Status new = status))
           (sql.tickets (view (committed s) ws))
           (sql.tickets (view (committed s') ws')).
Proof.
  intros env tickets status s ws r s' Hp H.
  unfold UpdateTicketStatuses in H.
  destruct (UpdateTicketStatuses_from_pending _ _ _ _ _ _ _ _ Hp H)
    as (done & rest & Hids & Hr & Hc & Hpend).
  eexists. split; [exact Hpend|].
  rewrite Hc, view_app, view_updates. cbn [concert_sessions orders sql.tickets].
  repeat split; auto.
  rewrite mark_closed_form. clear Hpend Hp H.
  induction (sql.tickets (view (committed s) ws)) as [|t ts IH];
    cbn [map]; constructor; [|exact IH].
  destruct (existsb (N.eqb (models.Ticket.ID t)) done) eqn:E; cbn.
  - repeat split; auto. intros Hn. exfalso. apply Hn.
    apply existsb_exists in E. destruct E as (x & Hx & Hxe).
    apply N.eqb_eq in Hxe. rewrite Hids, Hxe. apply in_or_app. now left.
  - repeat split; auto. intros Hok Hin. exfalso.
    rewrite Hids, (Hr Hok), app_nil_r in Hin.
    assert (existsb (N.eqb (models.Ticket.ID t)) done = true).
    { apply existsb_exists. exists (models.Ticket.ID t). split; auto. apply N.eqb_refl. }
    congruence.
Qed.

Lemma UpdateTicketStatuses_touches_only_listed_status_witness :
  exists ws',
    pending (snd (UpdateTicketStatuses scenario.healthy
                    [scenario.ticket 3 1 "available"; scenario.ticket 4 1 "available"]
                    "sold" (scenario.begun scenario.five_available))) = Some ws'
    /\ concert_sessions (view scenario.five_available ws')
       = concert_sessions scenario.five_available
    /\ orders (view scenario.five_available ws') = orders scenario.five_available
    /\ map models.Ticket.Status (sql.tickets (view scenario.five_available ws'))
       = ["available"; "sold"; "available"; "sold"; "sold"; "available"; "available"].
Proof.
  destruct (UpdateTicketStatuses_touches_only_listed_status scenario.healthy
              [scenario.ticket 3 1 "available"; scenario.ticket 4 1 "available"]
              "sold" (scenario.begun scenario.five_available)
              [] _ _ eq_refl (surjective_pairing _))
    as (ws' & Hp & Hc & Hs & Ho & _).
  exists ws'. split; [exact Hp|].
  vm_compute in Hp. inversion Hp. subst ws'.
  split; [reflexivity|]. split; reflexivity.
Defined.

(** ** What a successful call did *)

(** The body of the transaction, when it returns nil: the session row
    was found, [sel] is what the SELECT returned and is not empty, the
    order row carries the total as the column stores it, and every
    selected id has been updated. *)
Lemma CreateOrder_tx_success env req s order sel s' :
  pending s = Some [] ->
  service.CreateOrder_tx env req s = (Ok (order, sel), s') ->
  exists row total0 total,
    select_session (service.ConcertSessionID req) (concert_sessions (committed s)) = Some row
    /\ select_available (service.ConcertSessionID req) (service.NumberOfTickets req)
         (sql.tickets (committed s)) = Ok sel
    /\ sel <> []
    /\ decimal.Mul (decimal.NewFromInt (Z.of_nat (List.length sel)))
         (db.ConcertSession.Price row) = Some total0
    /\ numeric_10_2 total0 = Some total
    /\ order = models.Order.mk (order_seq env) (now_ms env) "pending" total
    /\ committed s' = committed s
    /\ pending s'
       = Some ([InsertedOrder (db.Order.mk (order_seq env) (now_ms env) "pending" total)]
                 ++ map (UpdatedTicket "pending") (spec.ids_of sel)).
Proof.
  intros Hp H. unfold service.CreateOrder_tx in H.
  unfold bind at 1 in H. unfold GetConcertSessionByID in H.
  destruct (get_session_err env); [discriminate|].
  cbn [committed record] in H.
  destruct (select_session _ _) as [row|] eqn:ES; [|discriminate].
  unfold bind at 1 in H. unfold GetAvailableTicketsBySessionID in H.
  destruct (select_err env); [discriminate|].
  cbn [committed record] in H.
  destruct (select_available _ _ _) as [sel0|] eqn:EA; [|discriminate].
  destruct sel0 as [|t0 sel0]; [discriminate|].
  cbn [List.length Nat.eqb] in H.
  cbn [db.ConcertSession.ToConcertSession models.ConcertSession.Price] in H.
  destruct (decimal.Mul _ _) as [total0|] eqn:EM; [|discriminate].
  unfold bind at 1 in H. unfold repository.CreateOrder in H.
  destruct (insert_err env); [discriminate|].
  cbn [pending record committed models.Order.Status models.Order.TotalPrice] in H.
  rewrite Hp in H. cbn [app view fold_left] in H.
  destruct (50 <? _); [discriminate|].
  destruct (existsb _ _); [discriminate|].
  destruct (numeric_10_2 total0) as [total|] eqn:EN; [|discriminate].
  unfold bind in H.
  match type of H with
  | context [UpdateTicketStatuses env ?l ?st ?s0] =>
      destruct (UpdateTicketStatuses env l st s0) as [[u|e] s4] eqn:EU
  end; [|discriminate].
  inversion H; subst order sel s4; clear H.
  unfold UpdateTicketStatuses in EU.
  eapply UpdateTicketStatuses_from_pending in EU; [|reflexivity].
  destruct EU as (done & rest & Hids & Hr & Hc & Hpend). destruct u.
  rewrite (Hr eq_refl), app_nil_r in Hids. subst done.
  exists row, total0, total.
  split; [reflexivity|]. split; [reflexivity|]. split; [discriminate|].
  split; [exact EM|]. split; [exact EN|]. split; [reflexivity|].
  split; [exact Hc|]. exact Hpend.
Qed.

Lemma service_CreateOrder_success env req s resp s' :
  service.CreateOrder env (Some req) s = (Ok resp, s') ->
  exists row sel total0 total,
    select_session (service.ConcertSessionID req) (concert_sessions (committed s)) = Some row
    /\ select_available (service.ConcertSessionID req) (service.NumberOfTickets req)
         (sql.tickets (committed s)) = Ok sel
    /\ sel <> []
    /\ 1 <= service.NumberOfTickets req <= 3
    /\ decimal.Mul (decimal.NewFromInt (Z.of_nat (List.length sel)))
         (db.ConcertSession.Price row) = Some total0
    /\ numeric_10_2 total0 = Some total
    /\ resp = service.mkResponse (order_seq env) "pending"
                (map uuid.String (spec.ids_of sel)) total (now_ms env)
    /\ committed s'
       = mkDB (concert_sessions (committed s))
           (spec.mark "pending" (spec.ids_of sel) (sql.tickets (committed s)))
           (orders (committed s)
              ++ [db.Order.mk (order_seq env) (now_ms env) "pending" total])
    /\ pending s' = None.
Proof.
  intros H. unfold service.CreateOrder in H.
  destruct (Z.leb_spec (service.NumberOfTickets req) 0); [discriminate|].
  destruct (Z.gtb_spec (service.NumberOfTickets req) 3); [discriminate|].
  unfold bind, WithTransaction, Beginx in H.
  destruct (begin_err env); [discriminate|].
  match type of H with
  | context [service.CreateOrder_tx env req ?s0] =>
      destruct (service.CreateOrder_tx env req s0) as [[[order sel]|e] s2] eqn:ET
  end; [|discriminate].
  eapply CreateOrder_tx_success in ET; [|reflexivity].
  destruct ET as (row & total0 & total & Hs & Ha & Hne & Hm & Hn & Ho & Hc & Hpend).
  cbn [committed record] in *.
  unfold Commit in H. cbn [pending record] in H. rewrite Hpend in H.
  destruct (commit_err env); [discriminate|].
  inversion H; subst; clear H.
  exists row, sel, total0, total. cbn [committed pending].
  rewrite Hc. change (view ?d (?w :: ?ws)) with (view (apply_write d w) ws).
  rewrite view_updates. cbn.
  repeat split; auto; try lia.
  unfold spec.ids_of. rewrite map_map. reflexivity.
Qed.

Lemma handler_CreateOrder_success env req s resp s' :
  handler.CreateOrder env req s = (handler.Response resp, s') ->
  exists sresp,
    service.CreateOrder env
      (Some (service.mkRequest (api.UserId req) (api.ConcertSessionId req)
               (api.NumberOfTickets req))) s = (Ok sresp, s')
    /\ resp = api.mkResponse
                (handler.int32 (service.OrderID sresp))
                (service.Status sresp)
                (service.TicketIDs sresp)
                (decimal.InexactFloat64 (service.TotalPrice sresp))
                (Z.quot (service.CreatedAt sresp) 1000).
Proof.
  intros H. unfold handler.CreateOrder in H.
  destruct (api.UserId req <=? 0); [discriminate|].
  destruct (api.ConcertSessionId req <=? 0); [discriminate|].
  destruct (api.NumberOfTickets req <=? 0); [discriminate|].
  destruct (api.NumberOfTickets req >? 3); [discriminate|].
  destruct (service.CreateOrder env _ s) as [[sresp|e] s1] eqn:ES; [|discriminate].
  inversion H; subst. exists sresp. split; reflexivity.
Qed.

(** ** Selection order *)

Section SortedLists.
Context {A : Type} (R : A -> A -> Prop).

Lemma StronglySorted_app_cross (l1 l2 : list A) :
  StronglySorted R (l1 ++ l2) ->
  forall u t, In u l1 -> In t l2 -> R u t.
Proof.
  induction l1 as [|a l1 IH]; cbn; intros HS u t Hu Ht; [contradiction|].
  apply StronglySorted_inv in HS. destruct HS as [HS Hall].
  destruct Hu as [->|Hu].
  - rewrite Forall_forall in Hall. apply Hall. apply in_or_app. now right.
  - now apply IH.
Qed.

Lemma StronglySorted_app_left (l1 l2 : list A) :
  StronglySorted R (l1 ++ l2) -> StronglySorted R l1.
Proof.
  induction l1 as [|a l1 IH]; cbn; intros HS; [constructor|].
  apply StronglySorted_inv in HS. destruct HS as [HS Hall].
  constructor; [now apply IH|].
  apply Forall_app in Hall. tauto.
Qed.

End SortedLists.


Lemma sort_by_id (l : list models.Ticket.t) :
  StronglySorted by_id (TicketSort.sort l).
Proof.
  assert (HT : Relation_Definitions.transitive _
                 (fun x y => is_true (TicketOrder.leb x y))).
  { intros x y z Hxy Hyz. unfold TicketOrder.leb, is_true in *.
    rewrite N.leb_le in *. eapply N.le_trans; eauto. }
  pose proof (Sorted_StronglySorted HT (TicketSort.Sorted_sort l)) as HS.
  induction HS as [|a l' HS IH Hall]; constructor; auto.
  eapply Forall_impl; [|exact Hall].
  intros b Hb. unfold by_id. apply N.leb_le. exact Hb.
Qed.

(** What the SELECT of [GetAvailableTicketsBySessionID] returns. *)
Lemma select_available_spec sid n ts sel :
  select_available sid n ts = Ok sel ->
  StronglySorted by_id sel
  /\ (List.length sel <= Z.to_nat n)%nat
  /\ (forall t, In t sel -> In t (spec.available sid ts))
  /\ (forall t u, In t (spec.available sid ts) -> ~ In t sel -> In u sel -> by_id u t)
  /\ (List.length sel = Nat.min (Z.to_nat n) (List.length (spec.available sid ts))).
Proof.
  unfold select_available. destruct (n <? 0); [discriminate|].
  intros H. inversion H; subst sel; clear H.
  fold (spec.available sid ts).
  set (sorted := TicketSort.sort (spec.available sid ts)).
  pose proof (sort_by_id (spec.available sid ts)) as HS. fold sorted in HS.
  pose proof (TicketSort.Permuted_sort (spec.available sid ts)) as HP. fold sorted in HP.
  rewrite <- (firstn_skipn (Z.to_nat n) sorted) in HS.
  split; [eapply StronglySorted_app_left; exact HS|].
  split; [apply firstn_le_length|].
  split.
  { intros t Ht. eapply Permutation_in; [apply Permutation_sym; exact HP|].
    rewrite <- (firstn_skipn (Z.to_nat n) sorted). apply in_or_app. now left. }
  split.
  { intros t u Ht Hnot Hu.
    apply (Permutation_in _ HP) in Ht.
    rewrite <- (firstn_skipn (Z.to_nat n) sorted) in Ht.
    apply in_app_or in Ht. destruct Ht as [Ht|Ht]; [contradiction|].
    eapply StronglySorted_app_cross; eauto. }
  rewrite length_firstn, <- (Permutation_length HP). reflexivity.
Qed.

(** C8: in a successful reply the ticket identifiers are those of rows
    of the requested session that were available in the committed
    table, listed in ascending order of id, and no available row of that
    session left out has a smaller id than a returned one; the reply
    lists them in the order the SELECT gave them. *)
Theorem CreateOrder_selects_ascending_available :
  forall env req s resp s',
    handler.CreateOrder env req s = (handler.Response resp, s') ->
    exists sel,
      select_available (api.ConcertSessionId req) (api.NumberOfTickets req)
        (sql.tickets (committed s)) = Ok sel
      /\ api.TicketIds resp = map uuid.String (spec.ids_of sel)
      /\ StronglySorted by_id sel
      /\ (forall t, In t sel ->
            In t (sql.tickets (committed s))
            /\ models.Ticket.SessionID t = api.ConcertSessionId req
            /\ models.Ticket.Status t = "available")
      /\ (forall t u,
            In t (sql.tickets (committed s)) ->
            models.Ticket.SessionID t = api.ConcertSessionId req ->
            models.Ticket.Status t = "available" ->
            ~ In t sel -> In u sel -> by_id u t).
Proof.
  intros env req s resp s' H.
  apply handler_CreateOrder_success in H. destruct H as (sresp & HS & ->).
  apply service_CreateOrder_success in HS.
  destruct HS as (row & sel & total0 & total & _ & Ha & _ & _ & _ & _ & -> & _).
  cbn [service.ConcertSessionID service.NumberOfTickets] in Ha.
  destruct (select_available_spec _ _ _ _ Ha) as (Hsorted & _ & Hin & Hmin & _).
  exists sel. split; [exact Ha|]. split; [reflexivity|]. split; [exact Hsorted|].
  split.
  - intros t Ht. apply Hin in Ht. unfold spec.available in Ht.
    apply filter_In in Ht. destruct Ht as [Ht Hav]. unfold available_in in Hav.
    apply andb_true_iff in Hav. destruct Hav as [H1 H2].
    apply Z.eqb_eq in H1. apply String.eqb_eq in H2. auto.
  - intros t u Ht Hsid Hst Hnot Hu. apply (Hmin t u); auto.
    unfold spec.available. apply filter_In. split; [exact Ht|].
    unfold available_in. rewrite Hsid, Hst, Z.eqb_refl. reflexivity.
Qed.

Lemma CreateOrder_selects_ascending_available_witness :
  exists resp s',
    handler.CreateOrder scenario.healthy (api.mkRequest 7 1 3)
      (scenario.fresh scenario.five_available) = (handler.Response resp, s')
    /\ api.TicketIds resp
       = ["00000000-0000-0000-0000-000000000002";
          "00000000-0000-0000-0000-000000000003";
          "00000000-0000-0000-0000-000000000004"].
Proof.
  destruct (handler.CreateOrder scenario.healthy (api.mkRequest 7 1 3)
              (scenario.fresh scenario.five_available)) as [[resp|st] s'] eqn:E.
  - exists resp, s'. split; [reflexivity|].
    destruct (CreateOrder_selects_ascending_available _ _ _ _ _ E)
      as (sel & Hsel & Hids & _).
    rewrite Hids. vm_compute in Hsel. inversion Hsel. reflexivity.
  - vm_compute in E. discriminate E.
Defined.

(** ** Total price *)

Lemma toQ_scale (n v e : Z) :
  e < 0 ->
  (decimal.toQ (decimal.mkDecimal (n * v) e)
   == inject_Z n * decimal.toQ (decimal.mkDecimal v e))%Q.
Proof.
  intros He. unfold decimal.toQ; cbn [decimal.exp decimal.value].
  destruct (Z.leb_spec 0 e); [lia|].
  unfold Qeq, Qmult, inject_Z; cbn [Qnum Qden].
  rewrite Pos.mul_1_l. reflexivity.
Qed.

(** The total of [k] tickets at a schema-conforming price goes through
    the multiplication and the [DECIMAL(10,2)] column unchanged. *)
Lemma total_of_price (k : Z) (p total0 total : decimal.Decimal) :
  spec.price_ok p ->
  decimal.Mul (decimal.NewFromInt k) p = Some total0 ->
  numeric_10_2 total0 = Some total ->
  total = decimal.mkDecimal (k * decimal.value p) (decimal.exp p).
Proof.
  intros [He Hv] HM HN. unfold decimal.Mul in HM.
  cbn [decimal.NewFromInt decimal.exp decimal.value] in HM.
  rewrite He in HM. cbn in HM. inversion HM; subst total0; clear HM.
  unfold numeric_10_2 in HN. cbn [decimal.exp decimal.value] in HN.
  cbn [Z.leb Z.compare Z.add Z.pos_sub] in HN.
  change (10 ^ (-2 + 2)) with 1 in HN. rewrite Z.mul_1_r in HN.
  destruct (Z.abs _ <? _); [|discriminate].
  inversion HN. rewrite He. reflexivity.
Qed.

(** C4, amended: when the session holds at least the
    requested number of available tickets and its price is a
    [DECIMAL(10,2)] value, a successful call stores an order whose total
    is the decimal [quantity * price] (same exponent, no rounding), and
    the reply carries that decimal converted to a binary64 double. *)
Theorem CreateOrder_total_exact_decimal_then_double :
  forall env req s resp s',
    handler.CreateOrder env req s = (handler.Response resp, s') ->
    (forall row, In row (concert_sessions (committed s)) ->
                 spec.price_ok (db.ConcertSession.Price row)) ->
    (Z.to_nat (api.NumberOfTickets req)
     <= List.length (spec.available (api.ConcertSessionId req)
                       (sql.tickets (committed s))))%nat ->
    exists row total,
      select_session (api.ConcertSessionId req) (concert_sessions (committed s)) = Some row
      /\ total = decimal.mkDecimal
                   (api.NumberOfTickets req * decimal.value (db.ConcertSession.Price row))
                   (decimal.exp (db.ConcertSession.Price row))
      /\ (decimal.toQ total
          == inject_Z (api.NumberOfTickets req)
             * decimal.toQ (db.ConcertSession.Price row))%Q
      /\ orders (committed s')
         = orders (committed s)
             ++ [db.Order.mk (order_seq env) (now_ms env) "pending" total]
      /\ api.TotalPrice resp = decimal.InexactFloat64 total.
Proof.
  intros env req s resp s' H Hschema Henough.
  apply handler_CreateOrder_success in H. destruct H as (sresp & HS & ->).
  apply service_CreateOrder_success in HS.
  destruct HS as (row & sel & total0 & total & Hrow & Ha & _ & Hq & HM & HN & -> & Hc & _).
  cbn [service.ConcertSessionID service.NumberOfTickets] in *.
  destruct (select_available_spec _ _ _ _ Ha) as (_ & _ & _ & _ & Hlen).
  rewrite Nat.min_l in Hlen by exact Henough.
  rewrite Hlen, Z2Nat.id in HM by lia.
  assert (Hp : spec.price_ok (db.ConcertSession.Price row)).
  { apply Hschema. unfold select_session in Hrow. apply find_some in Hrow. tauto. }
  pose proof (total_of_price _ _ _ _ Hp HM HN) as Ht.
  exists row, total.
  split; [exact Hrow|]. split; [exact Ht|].
  split.
  { rewrite Ht. destruct (db.ConcertSession.Price row) as [v e].
    apply toQ_scale. destruct Hp as [He _]. cbn in He |- *. lia. }
  split; [rewrite Hc; reflexivity|]. reflexivity.
Qed.

Lemma CreateOrder_total_exact_decimal_then_double_witness :
  exists resp s' row total,
    handler.CreateOrder scenario.healthy (api.mkRequest 7 1 3)
      (scenario.fresh scenario.five_available) = (handler.Response resp, s')
    /\ select_session 1 (concert_sessions scenario.five_available) = Some row
    /\ total = decimal.mkDecimal (3 * decimal.value (db.ConcertSession.Price row))
                 (decimal.exp (db.ConcertSession.Price row))
    /\ api.TotalPrice resp = decimal.InexactFloat64 total.
Proof.
  destruct (handler.CreateOrder scenario.healthy (api.mkRequest 7 1 3)
              (scenario.fresh scenario.five_available)) as [[resp|st] s'] eqn:E.
  - destruct (CreateOrder_total_exact_decimal_then_double _ _ _ _ _ E)
      as (row & total & Hrow & Ht & _ & _ & Hf).
    + cbn. intros row [<-|[]]. split; [reflexivity | cbn; lia].
    + cbn. lia.
    + exists resp, s', row, total. auto.
  - vm_compute in E. discriminate E.
Defined.

(** C4 as first stated does not hold: one ticket at 99.99 is answered
    with a double that is not 99.99. *)
Lemma CreateOrder_total_price_double_drifts :
  exists resp s' q,
    handler.CreateOrder scenario.healthy (api.mkRequest 7 1 1)
      (scenario.fresh scenario.one_available) = (handler.Response resp, s')
    /\ decimal.SF2Q (api.TotalPrice resp) = Some q
    /\ ~ (q == inject_Z 1 * decimal.toQ (decimal.mkDecimal 9999 (-2)))%Q.
Proof.
  eexists _, _, _. split; [vm_compute; reflexivity|].
  split; [vm_compute; reflexivity|].
  vm_compute. discriminate.
Qed.

(** ** Fewer tickets than requested *)

(** C2 does not hold of the code: two tickets are requested, the
    session has one available; the call succeeds, an order is committed
    and the one ticket is reserved. *)
Lemma CreateOrder_partial_fill_commits :
  exists resp s',
    handler.CreateOrder scenario.healthy (api.mkRequest 7 1 2)
      (scenario.fresh scenario.one_available) = (handler.Response resp, s')
    /\ orders (committed s')
       = [db.Order.mk 1 1735689600123 "pending" (decimal.mkDecimal 9999 (-2))]
    /\ sql.tickets (committed s') = [scenario.ticket 5 1 "pending"]
    /\ In (InTx, sql.Commit) (log s').
Proof.
  eexists _, _. split; [vm_compute; reflexivity|].
  cbn. repeat split. auto 10.
Qed.

(** C7 does not hold of the code: the same call answers with one
    ticket identifier although two were requested. *)
Lemma CreateOrder_partial_fill_reply :
  exists resp s',
    handler.CreateOrder scenario.healthy (api.mkRequest 7 1 2)
      (scenario.fresh scenario.one_available) = (handler.Response resp, s')
    /\ api.Status resp = "pending"
    /\ api.TicketIds resp = ["00000000-0000-0000-0000-000000000005"]
    /\ Z.of_nat (List.length (api.TicketIds resp)) <> 2.
Proof.
  eexists _, _. split; [vm_compute; reflexivity|].
  cbn. repeat split. discriminate.
Qed.

(** ** One call at a time is the sequential service *)

Import concurrent.



Lemma conn_task_of env req st s :
  conn (committed s) (task_of env req st s) = s.
Proof. destruct s; reflexivity. Qed.

Lemma moved_task_of env req st st' s s' :
  moved (task_of env req st s) st' s' = (task_of env req st' s', committed s').
Proof. reflexivity. Qed.

Lemma alone_Returned m d t r :
  stage t = Returned r -> alone m d t = (t, d).
Proof.
  revert d t. induction m as [|m IH]; intros d t H; cbn; [reflexivity|].
  unfold advance. rewrite H. apply IH. exact H.
Qed.

(** One statement of a call whose connection state is [s]. *)
Ltac one_statement :=
  cbn [alone loop]; unfold advance; rewrite conn_task_of;
  change (stage (task_of _ _ ?st _)) with st; cbv iota;
  try change (concurrent.env (task_of ?e _ _ _)) with e;
  try change (concurrent.req (task_of _ ?r _ _)) with r.

Ltac statement_done :=
  cbv iota beta; rewrite moved_task_of; cbv iota beta.

Lemma alone_Rollback env req e s m :
  (1 <= m)%nat ->
  alone m (committed s) (task_of env req (AtRollback e) s)
  = (task_of env req (Returned (Err e)) (snd (Rollback s)), committed s).
Proof.
  intros Hm. destruct m as [|m]; [lia|]. one_statement. statement_done.
  apply alone_Returned with (r := Err e). reflexivity.
Qed.

Lemma alone_loop env req order tickets :
  forall rest i s m,
    (List.length rest + 2 <= m)%nat ->
    alone m (committed s) (task_of env req (loop order tickets i rest) s)
    = (task_of env req (Returned (fst (finish_loop env order tickets i rest s)))
         (snd (finish_loop env order tickets i rest s)),
       committed (snd (finish_loop env order tickets i rest s))).
Proof.
  induction rest as [|x rest IH]; intros i s m Hm; cbn [List.length] in Hm.
  - destruct m as [|m]; [lia|].
    unfold finish_loop. cbn [UpdateTicketStatuses_from ret].
    one_statement.
    destruct (Commit env s) as [[u|e] s3]; statement_done;
      erewrite alone_Returned; reflexivity.
  - destruct m as [|m]; [lia|].
    unfold finish_loop. cbn [UpdateTicketStatuses_from]. unfold bind.
    one_statement.
    destruct (Exec_update env i "pending" (models.Ticket.ID x) s) as [[u|e] s1] eqn:E;
      statement_done.
    + rewrite IH by lia. unfold finish_loop. reflexivity.
    + rewrite alone_Rollback by lia. reflexivity.
Qed.

Lemma select_returns_at_most env sid n s tickets s' :
  GetAvailableTicketsBySessionID env sid n s = (Ok tickets, s') ->
  (List.length tickets <= Z.to_nat n)%nat.
Proof.
  unfold GetAvailableTicketsBySessionID. destruct (select_err env); [discriminate|].
  destruct (select_available _ _ _) as [ts|e] eqn:E; [|discriminate].
  intros H. inversion H; subst.
  apply select_available_spec in E. tauto.
Qed.

(** A call that takes all its turns in a row, nine statements being
    always enough, returns what [OrderService.CreateOrder] returns and
    leaves the tables, the transaction and the statement log as it
    does. *)
Lemma alone_is_CreateOrder env req d m :
  (9 <= m)%nat ->
  alone m d (spawn env req)
  = (task_of env req
       (Returned (fst (service.CreateOrder env (Some req) (mkConn d None []))))
       (snd (service.CreateOrder env (Some req) (mkConn d None []))),
     committed (snd (service.CreateOrder env (Some req) (mkConn d None [])))).
Proof.
  intros Hm. set (s0 := mkConn d None []).
  change d with (committed s0) at 1.
  unfold spawn, service.CreateOrder.
  destruct (Z.leb_spec (service.NumberOfTickets req) 0) as [Hle|Hgt];
    [erewrite (alone_Returned m); reflexivity|].
  destruct (Z.gtb_spec (service.NumberOfTickets req) 3) as [Hgt3|Hle3];
    [erewrite (alone_Returned m); reflexivity|].
  change (mkTask env req AtBegin None []) with (task_of env req AtBegin s0).
  unfold bind, WithTransaction.
  destruct m as [|m]; [lia|]. one_statement.
  destruct (Beginx env s0) as [[u|e] s1]; statement_done;
    [|erewrite (alone_Returned m); reflexivity].
  destruct m as [|m]; [lia|]. one_statement.
  unfold service.CreateOrder_tx, bind.
  destruct (GetConcertSessionByID env (service.ConcertSessionID req) s1)
    as [[[cs|]|e] s2]; statement_done;
    [| rewrite alone_Rollback by lia; reflexivity
     | rewrite alone_Rollback by lia; reflexivity].
  destruct m as [|m]; [lia|]. one_statement.
  destruct (GetAvailableTicketsBySessionID env (service.ConcertSessionID req)
              (service.NumberOfTickets req) s2) as [[tickets|e] s3] eqn:ESel;
    [|statement_done; rewrite alone_Rollback by lia; reflexivity].
  apply select_returns_at_most in ESel.
  destruct (List.length tickets =? 0)%nat;
    [statement_done; rewrite alone_Rollback by lia; reflexivity|].
  destruct (decimal.Mul _ _) as [total|];
    [|statement_done; rewrite alone_Rollback by lia; reflexivity].
  statement_done.
  destruct m as [|m]; [lia|]. one_statement.
  destruct (repository.CreateOrder env (models.Order.mk 0 0 "pending" total) s3)
    as [[order|e] s4]; statement_done;
    [|rewrite alone_Rollback by lia; reflexivity].
  rewrite alone_loop by lia.
  unfold finish_loop, UpdateTicketStatuses.
  destruct (UpdateTicketStatuses_from env 0 tickets "pending" s4) as [[u1|e] s5];
    [|reflexivity].
  cbn [ret]. destruct (Commit env s5) as [[u2|e] s6]; reflexivity.
Qed.

(** ** Two calls for the last ticket *)

(** The SELECT ... FOR UPDATE is issued on the pool: it leaves the
    transaction of the call as it was, and its statement is logged with
    the pool handle. *)
Lemma select_runs_outside_transaction env sid n s r s' :
  GetAvailableTicketsBySessionID env sid n s = (r, s') ->
  log s' = log s ++ [(Pool, SelectAvailableForUpdate sid n)]
  /\ pending s' = pending s
  /\ committed s' = committed s.
Proof.
  unfold GetAvailableTicketsBySessionID. intros H.
  destruct (select_err env); [inversion H; subst; cbn; auto|].
  destruct (select_available _ _ _); inversion H; subst; cbn; auto.
Qed.

(** C1 does not hold of the code: session 1 has one available ticket
    and two calls ask for one ticket each.  Both run their SELECT before
    either runs its UPDATE; no statement ever has to wait; both commit
    an order and both hand out the same ticket. *)
Lemma concurrent_CreateOrder_reserves_ticket_twice :
  exists sys,
    run [0; 0; 0; 1; 1; 1; 0; 0; 0; 1; 1; 1]%nat
      (mkSystem scenario.one_available
         [spawn scenario.healthy (service.mkRequest 7 1 1);
          spawn scenario.healthy_next (service.mkRequest 8 1 1)]) = Some sys
    /\ map finished (calls sys) = [true; true]
    /\ handed_out sys
       = ["00000000-0000-0000-0000-000000000005";
          "00000000-0000-0000-0000-000000000005"]
    /\ map db.Order.ID (orders (store sys)) = [1; 2]
    /\ sql.tickets (store sys) = [scenario.ticket 5 1 "pending"]
    /\ Forall (fun t => In (Pool, SelectAvailableForUpdate 1 1) (issued t)
                        /\ In (InTx, UpdateTicketStatus "pending" 5%N) (issued t))
         (calls sys).
Proof.
  eexists. split; [vm_compute; reflexivity|].
  split; [reflexivity|]. split; [reflexivity|]. split; [reflexivity|].
  split; [reflexivity|].
  repeat (constructor; [split; cbn; auto 10|]). constructor.
Qed.

(** ** What the code does around the partial fill *)

(** With no available ticket at all the call is refused: the reply is
    ResourceExhausted, the transaction is rolled back and the tables are
    the ones before the call. *)
Lemma CreateOrder_none_available env req s row :
  0 < api.UserId req ->
  0 < api.ConcertSessionId req ->
  1 <= api.NumberOfTickets req <= 3 ->
  begin_err env = None -> get_session_err env = None -> select_err env = None ->
  select_session (api.ConcertSessionId req) (concert_sessions (committed s)) = Some row ->
  spec.available (api.ConcertSessionId req) (sql.tickets (committed s)) = [] ->
  handler.CreateOrder env req s
  = (handler.Failure (handler.Errorf codes.ResourceExhausted "no tickets available"),
     mkConn (committed s) None
       (log s ++ [(Pool, Begin)]
              ++ [(Pool, SelectSession (api.ConcertSessionId req))]
              ++ [(Pool, SelectAvailableForUpdate (api.ConcertSessionId req)
                           (api.NumberOfTickets req))]
              ++ [(InTx, sql.Rollback)])).
Proof.
  intros Hu Hs Hn Hb Hg Hsel Hrow Hnone.
  assert (Hsa : select_available (api.ConcertSessionId req) (api.NumberOfTickets req)
                  (sql.tickets (committed s)) = Ok []).
  { unfold select_available.
    destruct (Z.ltb_spec (api.NumberOfTickets req) 0); [lia|].
    unfold spec.available in Hnone. rewrite Hnone.
    change (TicketSort.sort []) with (@nil models.Ticket.t).
    rewrite firstn_nil. reflexivity. }
  unfold handler.CreateOrder.
  destruct (Z.leb_spec (api.UserId req) 0); [lia|].
  destruct (Z.leb_spec (api.ConcertSessionId req) 0); [lia|].
  destruct (Z.leb_spec (api.NumberOfTickets req) 0); [lia|].
  destruct (Z.gtb_spec (api.NumberOfTickets req) 3); [lia|].
  unfold service.CreateOrder; cbn [service.NumberOfTickets].
  destruct (Z.leb_spec (api.NumberOfTickets req) 0); [lia|].
  destruct (Z.gtb_spec (api.NumberOfTickets req) 3); [lia|].
  unfold bind, WithTransaction, Beginx. rewrite Hb.
  unfold service.CreateOrder_tx, bind, GetConcertSessionByID,
    GetAvailableTicketsBySessionID.
  rewrite Hg, Hsel. cbn [committed record service.ConcertSessionID service.NumberOfTickets].
  rewrite Hrow. cbn [committed record]. rewrite Hsa.
  cbn. rewrite <- !app_assoc. reflexivity.
Qed.

(** A successful call answers "pending", hands out as many identifiers
    as the SELECT returned, which is the smaller of the requested
    quantity and the number of available tickets of the session, and
    commits exactly these rows as "pending" together with one new
    order. *)
Lemma CreateOrder_success_summary env req s resp s' :
  handler.CreateOrder env req s = (handler.Response resp, s') ->
  exists sel total,
    api.Status resp = "pending"
    /\ api.TicketIds resp = map uuid.String (spec.ids_of sel)
    /\ List.length sel
       = Nat.min (Z.to_nat (api.NumberOfTickets req))
           (List.length (spec.available (api.ConcertSessionId req)
                           (sql.tickets (committed s))))
    /\ committed s'
       = mkDB (concert_sessions (committed s))
           (spec.mark "pending" (spec.ids_of sel) (sql.tickets (committed s)))
           (orders (committed s)
              ++ [db.Order.mk (order_seq env) (now_ms env) "pending" total]).
Proof.
  intros H.
  apply handler_CreateOrder_success in H. destruct H as (sresp & HS & ->).
  apply service_CreateOrder_success in HS.
  destruct HS as (row & sel & total0 & total & _ & Ha & _ & _ & _ & _ & -> & Hc & _).
  cbn [service.ConcertSessionID service.NumberOfTickets] in Ha.
  destruct (select_available_spec _ _ _ _ Ha) as (_ & _ & _ & _ & Hlen).
  exists sel, total. cbn. auto.
Qed.

(** The locks of the model do bite: once the first call has updated the
    ticket inside its transaction, the SELECT ... FOR UPDATE of the
    second call has to wait. *)
Lemma select_waits_for_updated_ticket :
  run [0; 0; 0; 1; 1; 0; 0; 1]%nat
    (mkSystem scenario.one_available
       [spawn scenario.healthy (service.mkRequest 7 1 1);
        spawn scenario.healthy_next (service.mkRequest 8 1 1)]) = None
  /\ exists sys,
      run [0; 0; 0; 1; 1; 0; 0; 0; 1; 1]%nat
        (mkSystem scenario.one_available
           [spawn scenario.healthy (service.mkRequest 7 1 1);
            spawn scenario.healthy_next (service.mkRequest 8 1 1)]) = Some sys
      /\ handed_out sys = ["00000000-0000-0000-0000-000000000005"]
      /\ map db.Order.ID (orders (store sys)) = [1].
Proof.
  split; [vm_compute; reflexivity|].
  eexists. split; [vm_compute; reflexivity|]. split; reflexivity.
Qed.

(** ** One call after the other *)

(** Calls that do not overlap never hand out a ticket twice: what the
    first call selected is "pending" when the second one selects. *)
Lemma consecutive_calls_hand_out_distinct_tickets env1 env2 req1 req2 s resp1 s1 resp2 s2 :
  handler.CreateOrder env1 req1 s = (handler.Response resp1, s1) ->
  handler.CreateOrder env2 req2 s1 = (handler.Response resp2, s2) ->
  exists sel1 sel2,
    api.TicketIds resp1 = map uuid.String (spec.ids_of sel1)
    /\ api.TicketIds resp2 = map uuid.String (spec.ids_of sel2)
    /\ forall id, In id (spec.ids_of sel1) -> ~ In id (spec.ids_of sel2).
Proof.
  intros H1 H2.
  apply handler_CreateOrder_success in H1. destruct H1 as (sresp1 & HS1 & ->).
  apply handler_CreateOrder_success in H2. destruct H2 as (sresp2 & HS2 & ->).
  apply service_CreateOrder_success in HS1.
  destruct HS1 as (row1 & sel1 & t01 & t1 & _ & _ & _ & _ & _ & _ & -> & Hc1 & _).
  apply service_CreateOrder_success in HS2.
  destruct HS2 as (row2 & sel2 & t02 & t2 & _ & Ha2 & _ & _ & _ & _ & -> & _ & _).
  exists sel1, sel2. split; [reflexivity|]. split; [reflexivity|].
  intros id Hin1 Hin2.
  unfold spec.ids_of in Hin2. apply in_map_iff in Hin2.
  destruct Hin2 as (u & Hid & Hu).
  apply select_available_spec in Ha2. destruct Ha2 as (_ & _ & Hav & _).
  apply Hav in Hu. unfold spec.available in Hu. apply filter_In in Hu.
  destruct Hu as [Hu Havail].
  rewrite Hc1 in Hu. cbn [sql.tickets] in Hu.
  rewrite mark_closed_form in Hu. apply in_map_iff in Hu.
  destruct Hu as (t & Ht & _).
  destruct (existsb (N.eqb (models.Ticket.ID t)) (spec.ids_of sel1)) eqn:E.
  - subst u. unfold available_in in Havail. cbn in Havail.
    rewrite andb_false_r in Havail. discriminate.
  - subst u. assert (existsb (N.eqb (models.Ticket.ID t)) (spec.ids_of sel1) = true).
    { apply existsb_exists. exists id. split; [exact Hin1|].
      apply N.eqb_eq. exact Hid. }
    congruence.
Qed.

(* ================================================================= *)
(** * Further properties of the order path *)

(** ** Identifiers in the request *)

(** X1: a request whose user id or session id is zero or negative is
    answered with InvalidArgument and the connection state is returned
    untouched: no statement was issued. *)
Theorem handler_rejects_nonpositive_ids :
  forall env req s,
    api.UserId req <= 0 \/ api.ConcertSessionId req <= 0 ->
    exists msg,
      handler.CreateOrder env req s
      = (handler.Failure (handler.Errorf codes.InvalidArgument msg), s).
Proof.
  intros env req s H. unfold handler.CreateOrder.
  destruct (Z.leb_spec (api.UserId req) 0); [eauto|].
  destruct (Z.leb_spec (api.ConcertSessionId req) 0); [eauto|].
  lia.
Qed.

Lemma handler_rejects_nonpositive_ids_witness :
  exists msg,
    handler.CreateOrder scenario.healthy (api.mkRequest 7 (-1) 2)
      (scenario.fresh scenario.five_available)
    = (handler.Failure (handler.Errorf codes.InvalidArgument msg),
       scenario.fresh scenario.five_available).
Proof.
  apply (handler_rejects_nonpositive_ids scenario.healthy (api.mkRequest 7 (-1) 2)
           (scenario.fresh scenario.five_available)).
  right. cbn. lia.
Defined.

(** ** WithTransaction, for any closure *)

(** X2: whatever closure runs in it, provided the closure itself only
    writes through the transaction, [WithTransaction] is all or nothing.
    When it returns an error the committed tables are those before the
    call.  When it returns nil they are those tables with exactly the
    writes the closure left in the transaction.  And once BEGIN has
    succeeded no transaction stays open and the last statement is the
    COMMIT or the ROLLBACK. *)
Theorem WithTransaction_all_or_nothing :
  forall (A : Type) env (fn : M A) s r s',
    keeps fn ->
    WithTransaction env fn s = (r, s') ->
    match r with
    | Err _ => committed s' = committed s
    | Ok a =>
        exists s2 ws,
          fn (mkConn (committed s) (Some []) (log s ++ [(Pool, Begin)])) = (Ok a, s2)
          /\ pending s2 = Some ws
          /\ committed s' = view (committed s) ws
    end
    /\ (begin_err env = None ->
        pending s' = None
        /\ exists l, log s' = l ++ [(InTx, sql.Commit)]
                     \/ log s' = l ++ [(InTx, sql.Rollback)]).
Proof.
  intros A env fn s r s' Hk H. unfold WithTransaction, Beginx in H.
  destruct (begin_err env) as [eb|].
  - inversion H; subst. split; [reflexivity | discriminate].
  - cbn [record committed pending log] in H.
    destruct (fn _) as [[a|e] s2] eqn:EF.
    + pose proof (Hk _ _ _ EF) as Hc. cbn in Hc.
      unfold Commit in H. cbn [record committed pending log] in H.
      destruct (commit_err env) as [ec|].
      * inversion H; subst. cbn. split; [exact Hc|].
        intros _. split; [reflexivity|]. eexists. left. reflexivity.
      * destruct (pending s2) as [ws|] eqn:EP; inversion H; subst; cbn.
        -- split.
           ++ exists s2, ws. rewrite Hc. auto.
           ++ intros _. split; [reflexivity|]. eexists. left. reflexivity.
        -- split; [exact Hc|]. intros _. split; [exact EP|].
           eexists. left. reflexivity.
    + pose proof (Hk _ _ _ EF) as Hc. cbn in Hc.
      inversion H; subst. cbn. split; [exact Hc|].
      intros _. split; [reflexivity|]. eexists. right. reflexivity.
Qed.

Lemma WithTransaction_all_or_nothing_witness :
  exists s2 ws,
    UpdateTicketStatuses scenario.healthy [scenario.ticket 5 1 "available"] "sold"
      (mkConn scenario.one_available (Some []) [(Pool, Begin)]) = (Ok tt, s2)
    /\ pending s2 = Some ws
    /\ committed (snd (WithTransaction scenario.healthy
                         (UpdateTicketStatuses scenario.healthy
                            [scenario.ticket 5 1 "available"] "sold")
                         (scenario.fresh scenario.one_available)))
       = view scenario.one_available ws.
Proof.
  exact (proj1 (WithTransaction_all_or_nothing unit scenario.healthy
                  (UpdateTicketStatuses scenario.healthy
                     [scenario.ticket 5 1 "available"] "sold")
                  (scenario.fresh scenario.one_available) (Ok tt) _
                  (keeps_UpdateTicketStatuses _ _ _) eq_refl)).
Defined.

(** ** What a successful call leaves untouched *)

(** X3: a successful call leaves [concert_sessions] alone, keeps every
    existing order and adds exactly one, the one the reply describes,
    and keeps every ticket row in place with its id and session: a row
    is either unchanged or now "pending" with its id in the reply. *)
Theorem CreateOrder_success_frame :
  forall env req s resp s',
    handler.CreateOrder env req s = (handler.Response resp, s') ->
    concert_sessions (committed s') = concert_sessions (committed s)
    /\ (exists row,
          orders (committed s') = orders (committed s) ++ [row]
          /\ db.Order.Status row = api.Status resp
          /\ handler.int32 (db.Order.ID row) = api.OrderId resp
          /\ Z.quot (db.Order.CreatedAt row) 1000 = api.CreatedAt resp
          /\ decimal.InexactFloat64 (db.Order.TotalPrice row) = api.TotalPrice resp)
    /\ Forall2
         (fun old new =>
            models.Ticket.ID new = models.Ticket.ID old
            /\ models.Ticket.SessionID new = models.Ticket.SessionID old
            /\ (new = old
                \/ (models.Ticket.Status new = "pending"
                    /\ In (uuid.String (models.Ticket.ID old)) (api.TicketIds resp))))
         (sql.tickets (committed s)) (sql.tickets (committed s')).
Proof.
  intros env req s resp s' H.
  apply handler_CreateOrder_success in H. destruct H as (sresp & HS & ->).
  apply service_CreateOrder_success in HS.
  destruct HS as (row & sel & total0 & total & _ & _ & _ & _ & _ & _ & -> & Hc & _).
  rewrite Hc. cbn [concert_sessions orders sql.tickets].
  split; [reflexivity|]. split.
  - eexists. split; [reflexivity|]. cbn. auto.
  - rewrite mark_closed_form. cbn [api.TicketIds service.TicketIDs]. clear Hc.
    induction (sql.tickets (committed s)) as [|t ts IH]; cbn [map];
      [constructor|]. constructor; [|exact IH].
    destruct (existsb (N.eqb (models.Ticket.ID t)) (ids_of sel)) eqn:E;
      cbn [models.Ticket.ID models.Ticket.SessionID models.Ticket.Status].
    + repeat split. right. split; [reflexivity|].
      apply existsb_exists in E. destruct E as (x & Hx & Hxe).
      apply N.eqb_eq in Hxe. rewrite Hxe. apply in_map. exact Hx.
    + auto.
Qed.

Lemma CreateOrder_success_frame_witness :
  exists resp s',
    handler.CreateOrder scenario.healthy (api.mkRequest 7 1 3)
      (scenario.fresh scenario.five_available) = (handler.Response resp, s')
    /\ concert_sessions (committed s') = concert_sessions scenario.five_available
    /\ List.length (orders (committed s')) = 1%nat.
Proof.
  destruct (handler.CreateOrder scenario.healthy (api.mkRequest 7 1 3)
              (scenario.fresh scenario.five_available)) as [[resp|st] s'] eqn:E.
  - exists resp, s'. split; [reflexivity|].
    destruct (CreateOrder_success_frame _ _ _ _ _ E) as (Hs & (row & Ho & _) & _).
    split; [exact Hs|]. rewrite Ho. reflexivity.
  - vm_compute in E. discriminate E.
Defined.

(** ** The schema's constraints survive every call *)

Lemma service_CreateOrder_fresh_id env req s resp s' :
  service.CreateOrder env (Some req) s = (Ok resp, s') ->
  ~ In (order_seq env) (map db.Order.ID (orders (committed s))).
Proof.
  intros H. unfold service.CreateOrder in H.
  destruct (_ <=? 0); [discriminate|]. destruct (_ >? 3); [discriminate|].
  unfold bind, WithTransaction, Beginx in H.
  destruct (begin_err env); [discriminate|].
  unfold service.CreateOrder_tx in H. unfold bind at 1 in H.
  unfold GetConcertSessionByID in H.
  destruct (get_session_err env); [discriminate|].
  cbn [committed record] in H.
  destruct (select_session _ _); [|discriminate].
  unfold bind at 1 in H. unfold GetAvailableTicketsBySessionID in H.
  destruct (select_err env); [discriminate|].
  cbn [committed record] in H.
  destruct (select_available _ _ _) as [sel|]; [|discriminate].
  destruct (List.length sel =? 0)%nat; [discriminate|].
  destruct (decimal.Mul _ _); [|discriminate].
  unfold bind at 1 in H. unfold repository.CreateOrder in H.
  destruct (insert_err env); [discriminate|].
  cbn [pending record committed view fold_left models.Order.Status] in H.
  destruct (50 <? _); [discriminate|].
  destruct (existsb _ _) eqn:EX; [discriminate|].
  intros Hin. apply in_map_iff in Hin. destruct Hin as (o & Ho & Hino).
  assert (existsb (fun o => db.Order.ID o =? order_seq env) (orders (committed s)) = true).
  { apply existsb_exists. exists o. split; [exact Hino|]. now apply Z.eqb_eq. }
  congruence.
Qed.

Lemma status_allowed_pending : status_allowed "pending" = true.
Proof. reflexivity. Qed.

(** X4: the constraints of the schema are kept by every call, whether it
    succeeds or fails: ticket ids stay unique, order ids stay unique
    (the generated id of the new order is not one already stored), and
    every ticket status stays one of pending, sold, available. *)
Theorem CreateOrder_keeps_schema :
  forall env req s r s',
    schema.ok (committed s) ->
    handler.CreateOrder env req s = (r, s') ->
    schema.ok (committed s').
Proof.
  intros env req s r s' Hok H. destruct r as [resp|st].
  - pose proof H as H0.
    apply handler_CreateOrder_success in H. destruct H as (sresp & HS & ->).
    pose proof (service_CreateOrder_fresh_id _ _ _ _ _ HS) as Hfresh.
    apply service_CreateOrder_success in HS.
    destruct HS as (row & sel & total0 & total & _ & _ & _ & _ & _ & _ & _ & Hc & _).
    destruct Hok as (Ht & Ho & Hst). unfold schema.ok, schema.ticket_ids_unique,
      schema.order_ids_unique, schema.statuses_checked in *.
    rewrite Hc. cbn [orders sql.tickets]. rewrite mark_closed_form.
    split; [|split].
    + rewrite map_map.
      erewrite map_ext; [exact Ht|]. intros t. cbn.
      destruct (existsb _ _); reflexivity.
    + rewrite map_app. cbn [map db.Order.ID].
      assert (Hperm : Permutation (order_seq env :: map db.Order.ID (orders (committed s)))
                        (map db.Order.ID (orders (committed s)) ++ [order_seq env])).
      { apply Permutation_cons_append. }
      eapply Permutation_NoDup; [exact Hperm|]. constructor; assumption.
    + apply Forall_map. eapply Forall_impl; [|exact Hst].
      intros t Ha. cbn. destruct (existsb _ _); [reflexivity | exact Ha].
  - unfold handler.CreateOrder in H.
    destruct (api.UserId req <=? 0); [inversion H; subst; exact Hok|].
    destruct (api.ConcertSessionId req <=? 0); [inversion H; subst; exact Hok|].
    destruct (api.NumberOfTickets req <=? 0); [inversion H; subst; exact Hok|].
    destruct (api.NumberOfTickets req >? 3); [inversion H; subst; exact Hok|].
    destruct (service.CreateOrder env _ s) as [[resp|e] s1] eqn:ES; [discriminate|].
    inversion H; subst.
    apply service_CreateOrder_failure in ES. destruct ES as [Hc _].
    rewrite Hc. exact Hok.
Qed.

Lemma CreateOrder_keeps_schema_witness :
  schema.ok (committed (snd (handler.CreateOrder scenario.healthy (api.mkRequest 7 1 3)
                               (scenario.fresh scenario.five_available)))).
Proof.
  eapply (CreateOrder_keeps_schema scenario.healthy (api.mkRequest 7 1 3)
            (scenario.fresh scenario.five_available)).
  - unfold schema.ok, schema.ticket_ids_unique, schema.order_ids_unique,
      schema.statuses_checked. cbn.
    split; [|split; [constructor|repeat constructor]].
    repeat (constructor; [cbn; intuition discriminate|]). constructor.
  - apply surjective_pairing.
Defined.

(** ** Inventory accounting *)

Section KeyedRows.
Context {A K : Type} (key : A -> K).

Lemma NoDup_map_filter (p : A -> bool) (l : list A) :
  NoDup (map key l) -> NoDup (map key (filter p l)).
Proof.
  induction l as [|a l IH]; cbn; intros H; [constructor|].
  apply NoDup_cons_iff in H. destruct H as [Hn Hd].
  destruct (p a); cbn; auto. constructor; auto.
  intros Hin. apply Hn. apply in_map_iff in Hin. destruct Hin as (x & Hx & Hin).
  apply filter_In in Hin. rewrite <- Hx. apply in_map. tauto.
Qed.

Lemma NoDup_map_same_key (l : list A) (a b : A) :
  NoDup (map key l) -> In a l -> In b l -> key a = key b -> a = b.
Proof.
  induction l as [|x l IH]; cbn; intros H Ha Hb Hk; [contradiction|].
  apply NoDup_cons_iff in H. destruct H as [Hn Hd].
  destruct Ha as [->|Ha], Hb as [->|Hb]; auto.
  - exfalso. apply Hn. rewrite Hk. now apply in_map.
  - exfalso. apply Hn. rewrite <- Hk. now apply in_map.
Qed.

End KeyedRows.

Lemma NoDup_app_disjoint {A} (l1 l2 : list A) :
  NoDup (l1 ++ l2) -> forall a, In a l1 -> ~ In a l2.
Proof.
  induction l1 as [|x l1 IH]; cbn; intros H a Ha; [contradiction|].
  apply NoDup_cons_iff in H. destruct H as [Hn Hd].
  destruct Ha as [->|Ha]; [|now apply IH].
  intros Hin. apply Hn. apply in_or_app. now right.
Qed.

Lemma Permutation_filter_length {A} (p : A -> bool) (l l' : list A) :
  Permutation l l' -> List.length (filter p l) = List.length (filter p l').
Proof.
  induction 1 as [|x l l' _ IH|x y l|l l' l'' _ IH1 _ IH2]; cbn.
  - reflexivity.
  - destruct (p x); cbn; congruence.
  - destruct (p x), (p y); reflexivity.
  - congruence.
Qed.

Lemma filter_none {A} (p : A -> bool) (l : list A) :
  (forall x, In x l -> p x = false) -> filter p l = [].
Proof.
  induction l as [|a l IH]; cbn; intros H; [reflexivity|].
  rewrite (H a) by auto. apply IH. auto.
Qed.

Lemma filter_all {A} (p : A -> bool) (l : list A) :
  (forall x, In x l -> p x = true) -> filter p l = l.
Proof.
  induction l as [|a l IH]; cbn; intros H; [reflexivity|].
  rewrite (H a) by auto. f_equal. apply IH. auto.
Qed.

(** The SELECT splits the available rows of the session into the ones
    it returns and the ones it leaves. *)
Lemma select_available_split sid n ts sel :
  NoDup (ids_of ts) ->
  select_available sid n ts = Ok sel ->
  exists rest,
    Permutation (spec.available sid ts) (sel ++ rest)
    /\ NoDup (ids_of (sel ++ rest)).
Proof.
  unfold select_available. intros Hnd H.
  destruct (n <? 0); [discriminate|]. inversion H; subst sel; clear H.
  fold (spec.available sid ts).
  exists (skipn (Z.to_nat n) (TicketSort.sort (spec.available sid ts))).
  rewrite firstn_skipn. split; [apply TicketSort.Permuted_sort|].
  unfold ids_of. eapply Permutation_NoDup.
  - apply Permutation_map. apply TicketSort.Permuted_sort.
  - apply NoDup_map_filter. exact Hnd.
Qed.


Lemma left_by_false sel t : In t sel -> left_by sel t = false.
Proof.
  intros H. unfold left_by. apply negb_false_iff. apply existsb_exists.
  exists (models.Ticket.ID t). split; [now apply in_map | apply N.eqb_refl].
Qed.

Lemma left_by_true sel t :
  ~ In (models.Ticket.ID t) (ids_of sel) -> left_by sel t = true.
Proof.
  intros H. unfold left_by. apply negb_true_iff.
  destruct (existsb _ _) eqn:E; [|reflexivity].
  apply existsb_exists in E. destruct E as (x & Hx & He).
  apply N.eqb_eq in He. subst x. contradiction.
Qed.

Lemma available_after_mark sid ids ts :
  List.length (spec.available sid (spec.mark "pending" ids ts))
  = List.length
      (filter (fun t => negb (existsb (N.eqb (models.Ticket.ID t)) ids))
         (spec.available sid ts)).
Proof.
  rewrite mark_closed_form. unfold spec.available.
  induction ts as [|t ts IH]; cbn [map filter]; [reflexivity|].
  destruct (existsb (N.eqb (models.Ticket.ID t)) ids) eqn:E.
  - unfold available_in at 1. cbn [models.Ticket.Status models.Ticket.SessionID].
    rewrite andb_false_r.
    destruct (available_in sid t); cbn [filter]; [rewrite E; cbn [negb]|]; exact IH.
  - destruct (available_in sid t); cbn [filter List.length];
      [rewrite E; cbn [negb List.length]; f_equal|]; exact IH.
Qed.

(** X5: with ticket ids unique, a successful call takes exactly the
    tickets it hands out from the available tickets of its session, and
    the available tickets of every other session are what they were. *)
Theorem CreateOrder_takes_what_it_hands_out :
  forall env req s resp s',
    schema.ticket_ids_unique (committed s) ->
    handler.CreateOrder env req s = (handler.Response resp, s') ->
    (List.length (spec.available (api.ConcertSessionId req) (sql.tickets (committed s')))
     + List.length (api.TicketIds resp)
     = List.length (spec.available (api.ConcertSessionId req) (sql.tickets (committed s))))%nat
    /\ forall other,
        other <> api.ConcertSessionId req ->
        spec.available other (sql.tickets (committed s'))
        = spec.available other (sql.tickets (committed s)).
Proof.
  intros env req s resp s' Hnd H.
  apply handler_CreateOrder_success in H. destruct H as (sresp & HS & ->).
  apply service_CreateOrder_success in HS.
  destruct HS as (row & sel & total0 & total & _ & Ha & _ & _ & _ & _ & -> & Hc & _).
  cbn [service.ConcertSessionID service.NumberOfTickets] in Ha.
  rewrite Hc. cbn [sql.tickets api.TicketIds service.TicketIDs].
  unfold schema.ticket_ids_unique in Hnd. fold (ids_of (sql.tickets (committed s))) in Hnd.
  set (sid := api.ConcertSessionId req) in *.
  set (ts := sql.tickets (committed s)) in *.
  destruct (select_available_split _ _ _ _ Hnd Ha) as (rest & Hperm & Hnd2).
  split.
  - rewrite available_after_mark.
    fold (left_by sel). rewrite (Permutation_filter_length (left_by sel) _ _ Hperm).
    rewrite (Permutation_length Hperm), filter_app, !length_app, length_map.
    unfold ids_of at 1. rewrite length_map.
    rewrite (filter_none (left_by sel) sel) by (intros; now apply left_by_false).
    rewrite (filter_all (left_by sel) rest).
    + cbn. lia.
    + intros t Ht. apply left_by_true.
      unfold ids_of in Hnd2. rewrite map_app in Hnd2.
      intros Hin. apply (NoDup_app_disjoint _ _ Hnd2 _ Hin). now apply in_map.
  - intros other Hother. rewrite mark_closed_form. unfold spec.available.
    assert (Hsel : forall t, In t ts ->
               existsb (N.eqb (models.Ticket.ID t)) (ids_of sel) = true ->
               models.Ticket.SessionID t = sid).
    { intros t Ht E. apply existsb_exists in E. destruct E as (x & Hx & He).
      apply N.eqb_eq in He. subst x. unfold ids_of in Hx.
      apply in_map_iff in Hx. destruct Hx as (u & Hu & Huin).
      assert (Hav : In u (spec.available sid ts)).
      { eapply Permutation_in; [apply Permutation_sym; exact Hperm|].
        apply in_or_app. now left. }
      unfold spec.available in Hav. apply filter_In in Hav. destruct Hav as [Huts Hua].
      assert (t = u)
        by (apply (NoDup_map_same_key models.Ticket.ID ts t u Hnd Ht Huts);
            symmetry; exact Hu).
      subst u. unfold available_in in Hua. apply andb_true_iff in Hua.
      destruct Hua as [Hs _]. now apply Z.eqb_eq in Hs. }
    clearbody ts. clear - Hsel Hother.
    induction ts as [|t ts IH]; cbn [map filter]; [reflexivity|].
    rewrite IH by (intros; apply Hsel; auto; now right).
    destruct (existsb (N.eqb (models.Ticket.ID t)) (ids_of sel)) eqn:E; [|reflexivity].
    pose proof (Hsel t (or_introl eq_refl) E) as Hs.
    unfold available_in. cbn [models.Ticket.SessionID]. rewrite Hs.
    destruct (Z.eqb_spec sid other); [congruence|]. reflexivity.
Qed.

Lemma CreateOrder_takes_what_it_hands_out_witness :
  exists resp s',
    handler.CreateOrder scenario.healthy (api.mkRequest 7 1 3)
      (scenario.fresh scenario.five_available) = (handler.Response resp, s')
    /\ List.length (spec.available 1 (sql.tickets (committed s'))) = 2%nat
    /\ List.length (spec.available 2 (sql.tickets (committed s'))) = 1%nat.
Proof.
  destruct (handler.CreateOrder scenario.healthy (api.mkRequest 7 1 3)
              (scenario.fresh scenario.five_available)) as [[resp|st] s'] eqn:E.
  - exists resp, s'. split; [reflexivity|].
    assert (Hu : schema.ticket_ids_unique
                   (committed (scenario.fresh scenario.five_available))).
    { unfold schema.ticket_ids_unique; cbn.
      repeat (constructor; [cbn; intuition discriminate|]). constructor. }
    destruct (CreateOrder_takes_what_it_hands_out _ _ _ _ _ Hu E) as [Hcount Hother].
    split.
    + vm_compute in E. inversion E; subst. reflexivity.
    + rewrite (Hother 2) by (cbn; lia). reflexivity.
  - vm_compute in E. discriminate E.
Defined.

(** ** Distinct identifiers in the reply *)

Lemma digit_value_hex_digit n : (n < 16)%N -> digit_value (uuid.hex_digit n) = n.
Proof.
  intros H. rewrite <- (N2Nat.id n) in *.
  assert (Hn : (N.to_nat n < 16)%nat) by lia. clear H.
  revert Hn. generalize (N.to_nat n) as m. intros m Hm.
  do 16 (destruct m as [|m]; [reflexivity|]). lia.
Qed.

Lemma hex_length k : forall n, List.length (uuid.hex k n) = k.
Proof.
  induction k as [|k IH]; intros n; cbn [uuid.hex]; [reflexivity|].
  rewrite length_app, IH. cbn. lia.
Qed.

(** The digits determine the number they were taken from. *)
Lemma hex_digits_determine k :
  forall a b, uuid.hex k a = uuid.hex k b -> (a mod 16 ^ N.of_nat k = b mod 16 ^ N.of_nat k)%N.
Proof.
  induction k as [|k IH]; intros a b H.
  - cbn. now rewrite !N.mod_1_r.
  - cbn [uuid.hex] in H. apply app_inj_tail in H. destruct H as [Hhi Hlo].
    apply IH in Hhi.
    assert (Hd : (a mod 16 = b mod 16)%N).
    { rewrite <- (digit_value_hex_digit (a mod 16)), <- (digit_value_hex_digit (b mod 16))
        by (apply N.mod_lt; discriminate).
      now rewrite Hlo. }
    rewrite Nat2N.inj_succ, N.pow_succ_r'.
    rewrite !N.Div0.mod_mul_r. congruence.
Qed.

Lemma string_of_list_of_string l : list_of_string (uuid.string_of_list l) = l.
Proof. induction l as [|c l IH]; cbn; congruence. Qed.

Lemma undash_dashed (d : list ascii) :
  List.length d = 32%nat ->
  undash (firstn 8 d ++ ["-"%char] ++ firstn 4 (skipn 8 d) ++ ["-"%char]
            ++ firstn 4 (skipn 12 d) ++ ["-"%char] ++ firstn 4 (skipn 16 d)
            ++ ["-"%char] ++ skipn 20 d) = d.
Proof.
  intros H.
  do 32 (destruct d as [|? d]; [discriminate H|]).
  destruct d; [reflexivity | discriminate H].
Qed.

(** [UUID.String] tells 128-bit identifiers apart. *)
Lemma uuid_String_injective a b :
  (a < 2 ^ 128)%N -> (b < 2 ^ 128)%N -> uuid.String a = uuid.String b -> a = b.
Proof.
  intros Ha Hb H. unfold uuid.String in H.
  apply (f_equal list_of_string) in H. rewrite !string_of_list_of_string in H.
  apply (f_equal undash) in H.
  rewrite !undash_dashed in H by apply hex_length.
  apply hex_digits_determine in H.
  change (16 ^ N.of_nat 32)%N with (2 ^ 128)%N in H.
  rewrite !N.mod_small in H by assumption. exact H.
Qed.

Lemma NoDup_map_injective_on {A B} (f : A -> B) (l : list A) :
  (forall a b, In a l -> In b l -> f a = f b -> a = b) ->
  NoDup l -> NoDup (map f l).
Proof.
  induction l as [|x l IH]; cbn; intros Hinj H; [constructor|].
  apply NoDup_cons_iff in H. destruct H as [Hn Hd].
  constructor.
  - intros Hin. apply in_map_iff in Hin. destruct Hin as (y & Hy & Hyin).
    apply Hinj in Hy; auto. subst y. contradiction.
  - apply IH; auto.
Qed.

(** X6: with ticket ids unique (and 16 bytes long), the ticket
    identifiers of a successful reply are pairwise distinct. *)
Theorem CreateOrder_reply_ids_distinct :
  forall env req s resp s',
    schema.ticket_ids_unique (committed s) ->
    schema.ids_are_uuids (committed s) ->
    handler.CreateOrder env req s = (handler.Response resp, s') ->
    NoDup (api.TicketIds resp).
Proof.
  intros env req s resp s' Hnd Hu H.
  apply handler_CreateOrder_success in H. destruct H as (sresp & HS & ->).
  apply service_CreateOrder_success in HS.
  destruct HS as (row & sel & total0 & total & _ & Ha & _ & _ & _ & _ & -> & _ & _).
  cbn [service.ConcertSessionID service.NumberOfTickets api.TicketIds service.TicketIDs] in *.
  unfold schema.ticket_ids_unique in Hnd. fold (ids_of (sql.tickets (committed s))) in Hnd.
  destruct (select_available_split _ _ _ _ Hnd Ha) as (rest & Hperm & Hnd2).
  assert (Hsel : forall id, In id (ids_of sel) -> (id < 2 ^ 128)%N).
  { intros id Hid. unfold ids_of in Hid. apply in_map_iff in Hid.
    destruct Hid as (t & <- & Ht).
    assert (Hav : In t (spec.available (api.ConcertSessionId req)
                          (sql.tickets (committed s)))).
    { eapply Permutation_in; [apply Permutation_sym; exact Hperm|].
      apply in_or_app. now left. }
    unfold spec.available in Hav. apply filter_In in Hav.
    unfold schema.ids_are_uuids in Hu. rewrite Forall_forall in Hu.
    apply Hu. tauto. }
  apply NoDup_map_injective_on.
  - intros a b Hain Hbin. apply uuid_String_injective; auto.
  - unfold ids_of in Hnd2. rewrite map_app in Hnd2.
    apply NoDup_app_remove_r in Hnd2. exact Hnd2.
Qed.

Lemma CreateOrder_reply_ids_distinct_witness :
  NoDup (match fst (handler.CreateOrder scenario.healthy (api.mkRequest 7 1 3)
                      (scenario.fresh scenario.five_available)) with
         | handler.Response resp => api.TicketIds resp
         | handler.Failure _ => []
         end).
Proof.
  destruct (handler.CreateOrder scenario.healthy (api.mkRequest 7 1 3)
              (scenario.fresh scenario.five_available)) as [[resp|st] s'] eqn:E;
    cbn [fst]; [|constructor].
  eapply (CreateOrder_reply_ids_distinct scenario.healthy (api.mkRequest 7 1 3)
            (scenario.fresh scenario.five_available)); [| |exact E].
  - unfold schema.ticket_ids_unique; cbn.
    repeat (constructor; [cbn; intuition discriminate|]). constructor.
  - unfold schema.ids_are_uuids; cbn. repeat constructor.
Defined.

(** ** Witnesses for the facts around the partial fill *)

Lemma CreateOrder_none_available_witness :
  handler.CreateOrder scenario.healthy (api.mkRequest 7 1 2)
    (scenario.fresh scenario.none_available)
  = (handler.Failure (handler.Errorf codes.ResourceExhausted "no tickets available"),
     mkConn scenario.none_available None
       [(Pool, Begin); (Pool, SelectSession 1); (Pool, SelectAvailableForUpdate 1 2);
        (InTx, sql.Rollback)]).
Proof.
  refine (CreateOrder_none_available scenario.healthy (api.mkRequest 7 1 2)
            (scenario.fresh scenario.none_available) (scenario.session 1 9999)
            _ _ _ eq_refl eq_refl eq_refl eq_refl eq_refl).
  - cbn; lia.
  - cbn; lia.
  - cbn; lia.
Defined.

Lemma consecutive_calls_hand_out_distinct_tickets_witness :
  exists resp1 s1 resp2 s2 sel1 sel2,
    handler.CreateOrder scenario.healthy (api.mkRequest 7 1 3)
      (scenario.fresh scenario.five_available) = (handler.Response resp1, s1)
    /\ handler.CreateOrder scenario.healthy_next (api.mkRequest 8 1 3) s1
       = (handler.Response resp2, s2)
    /\ api.TicketIds resp1 = map uuid.String (ids_of sel1)
    /\ api.TicketIds resp2 = map uuid.String (ids_of sel2)
    /\ forall id, In id (ids_of sel1) -> ~ In id (ids_of sel2).
Proof.
  destruct (handler.CreateOrder scenario.healthy (api.mkRequest 7 1 3)
              (scenario.fresh scenario.five_available)) as [[resp1|st] s1] eqn:E1;
    [|vm_compute in E1; discriminate E1].
  destruct (handler.CreateOrder scenario.healthy_next (api.mkRequest 8 1 3) s1)
    as [[resp2|st] s2] eqn:E2.
  - destruct (consecutive_calls_hand_out_distinct_tickets _ _ _ _ _ _ _ _ _ E1 E2)
      as (sel1 & sel2 & H1 & H2 & H3).
    exists resp1, s1, resp2, s2, sel1, sel2. auto.
  - vm_compute in E1. inversion E1; subst. vm_compute in E2. discriminate E2.
Defined.

(* ================================================================= *)
(** * Further properties of the repositories *)

(** ** UpdateTicketStatuses at its edges *)

Lemma set_status_no_match st id ts :
  ~ In id (ids_of ts) -> map (set_status st id) ts = ts.
Proof.
  intros H. rewrite <- (map_id ts) at 2. apply map_ext_in.
  intros t Ht. unfold set_status.
  destruct (N.eqb_spec (models.Ticket.ID t) id) as [E|E]; [|reflexivity].
  exfalso. apply H. rewrite <- E. unfold ids_of. now apply in_map.
Qed.

Lemma no_row_matches id ts :
  ~ In id (ids_of ts) ->
  existsb (fun t => N.eqb (models.Ticket.ID t) id) ts = false.
Proof.
  intros H. destruct (existsb _ ts) eqn:E; [|reflexivity].
  apply existsb_exists in E. destruct E as (t & Ht & He).
  apply N.eqb_eq in He. exfalso. apply H. rewrite <- He.
  unfold ids_of. now apply in_map.
Qed.

Lemma view_snoc d ws w : view d (ws ++ [w]) = apply_write (view d ws) w.
Proof. unfold view. rewrite fold_left_app. reflexivity. Qed.

Lemma UpdateTicketStatuses_from_unknown env status :
  (forall j, exec_err env j = None) ->
  forall tickets i s ws,
    pending s = Some ws ->
    (forall t, In t tickets ->
               ~ In (models.Ticket.ID t) (ids_of (sql.tickets (view (committed s) ws)))) ->
    exists s' ws',
      UpdateTicketStatuses_from env i tickets status s = (Ok tt, s')
      /\ committed s' = committed s
      /\ pending s' = Some ws'
      /\ sql.tickets (view (committed s) ws') = sql.tickets (view (committed s) ws).
Proof.
  intros Hh tickets.
  induction tickets as [|t ts IH]; intros i s ws Hp Hun; cbn [UpdateTicketStatuses_from].
  - exists s, ws. unfold ret. auto.
  - unfold bind, Exec_update. rewrite Hh. cbn [pending record committed]. rewrite Hp.
    unfold update_refused. rewrite no_row_matches by (apply Hun; now left).
    cbn [andb].
    match goal with
    | |- context [UpdateTicketStatuses_from env ?j ts status ?s1] =>
        destruct (IH j s1 (ws ++ [UpdatedTicket status (models.Ticket.ID t)]) eq_refl)
          as (s' & ws' & Hrun & Hc & Hpend & Hv)
    end.
    + cbn [committed]. intros u Hu. rewrite view_snoc. cbn [apply_write sql.tickets].
      rewrite set_status_no_match by (apply Hun; now left). apply Hun. now right.
    + exists s', ws'. rewrite Hrun. cbn [committed] in *.
      split; [reflexivity|]. split; [exact Hc|]. split; [exact Hpend|].
      rewrite Hv, view_snoc. cbn [apply_write sql.tickets].
      apply set_status_no_match. apply Hun. now left.
Qed.

(** X9: tickets that are not in the table are no error.  When no listed
    id matches a row and no statement fails, [UpdateTicketStatuses]
    returns nil, whatever the status is, and the tickets table of the
    transaction is what it was. *)
Theorem UpdateTicketStatuses_unknown_ids_pass :
  forall env tickets status s ws,
    (forall j, exec_err env j = None) ->
    pending s = Some ws ->
    (forall t, In t tickets ->
               ~ In (models.Ticket.ID t) (ids_of (sql.tickets (view (committed s) ws)))) ->
    exists s' ws',
      UpdateTicketStatuses env tickets status s = (Ok tt, s')
      /\ committed s' = committed s
      /\ pending s' = Some ws'
      /\ sql.tickets (view (committed s') ws') = sql.tickets (view (committed s) ws).
Proof.
  intros env tickets status s ws Hh Hp Hun.
  destruct (UpdateTicketStatuses_from_unknown env status Hh tickets 0%nat s ws Hp Hun)
    as (s' & ws' & Hrun & Hc & Hpend & Hv).
  exists s', ws'. rewrite Hc. auto.
Qed.

Lemma UpdateTicketStatuses_unknown_ids_pass_witness :
  exists s' ws',
    UpdateTicketStatuses scenario.healthy [scenario.ticket 77 1 "available"]
      "cancelled" (scenario.begun scenario.one_available) = (Ok tt, s')
    /\ pending s' = Some ws'
    /\ sql.tickets (view (committed s') ws') = sql.tickets scenario.one_available.
Proof.
  destruct (UpdateTicketStatuses_unknown_ids_pass scenario.healthy
              [scenario.ticket 77 1 "available"] "cancelled"
              (scenario.begun scenario.one_available) [])
    as (s' & ws' & Hrun & _ & Hp & Hv).
  - reflexivity.
  - reflexivity.
  - cbn. intros t [<-|[]]. cbn. intros [H|[]]. discriminate H.
  - exists s', ws'. auto.
Defined.

Lemma UpdateTicketStatuses_from_unchecked env status :
  status_allowed status = false ->
  forall tickets i s ws r s',
    pending s = Some ws ->
    UpdateTicketStatuses_from env i tickets status s = (r, s') ->
    exists ws',
      pending s' = Some ws'
      /\ committed s' = committed s
      /\ sql.tickets (view (committed s) ws') = sql.tickets (view (committed s) ws)
      /\ (r = Ok tt ->
          forall t, In t tickets ->
                    ~ In (models.Ticket.ID t) (ids_of (sql.tickets (view (committed s) ws)))).
Proof.
  intros Hbad tickets.
  induction tickets as [|t ts IH]; intros i s ws r s' Hp H; cbn [UpdateTicketStatuses_from] in H.
  - inversion H; subst. exists ws. repeat split; auto.
  - unfold bind, Exec_update in H. cbn [pending record committed] in H. rewrite Hp in H.
    destruct (exec_err env i).
    { inversion H; subst. exists ws. cbn. repeat split; auto. discriminate. }
    unfold update_refused in H. rewrite Hbad in H. cbn [negb] in H. rewrite andb_true_r in H.
    destruct (existsb _ _) eqn:E.
    { inversion H; subst. exists ws. cbn. repeat split; auto. discriminate. }
    assert (Hno : ~ In (models.Ticket.ID t) (ids_of (sql.tickets (view (committed s) ws)))).
    { intros Hin. unfold ids_of in Hin. apply in_map_iff in Hin.
      destruct Hin as (u & Hu & Huin).
      assert (existsb (fun t0 => N.eqb (models.Ticket.ID t0) (models.Ticket.ID t))
                (sql.tickets (view (committed s) ws)) = true).
      { apply existsb_exists. exists u. split; [exact Huin|]. now apply N.eqb_eq. }
      congruence. }
    eapply IH in H; [|reflexivity]. cbn [committed] in H.
    destruct H as (ws' & Hpend & Hc & Hv & Hok).
    rewrite view_snoc in Hv, Hok. cbn [apply_write sql.tickets] in Hv, Hok.
    rewrite set_status_no_match in Hv, Hok by exact Hno.
    exists ws'. split; [exact Hpend|]. split; [exact Hc|]. split; [exact Hv|].
    intros Hr u [<-|Hu]; [exact Hno | now apply Hok].
Qed.

(** X10: a status outside pending, sold, available never reaches the
    table.  Whatever [UpdateTicketStatuses] returns for such a status,
    the tickets table of the transaction is what it was, and it returns
    nil only when none of the listed ids matches a row. *)
Theorem UpdateTicketStatuses_unchecked_status_changes_nothing :
  forall env tickets status s ws r s',
    status_allowed status = false ->
    pending s = Some ws ->
    UpdateTicketStatuses env tickets status s = (r, s') ->
    exists ws',
      pending s' = Some ws'
      /\ sql.tickets (view (committed s') ws') = sql.tickets (view (committed s) ws)
      /\ (r = Ok tt ->
          forall t, In t tickets ->
                    ~ In (models.Ticket.ID t) (ids_of (sql.tickets (view (committed s) ws)))).
Proof.
  intros env tickets status s ws r s' Hbad Hp H.
  destruct (UpdateTicketStatuses_from_unchecked env status Hbad tickets _ _ _ _ _ Hp H)
    as (ws' & Hpend & Hc & Hv & Hok).
  exists ws'. rewrite Hc. auto.
Qed.

Lemma UpdateTicketStatuses_unchecked_status_changes_nothing_witness :
  exists e ws',
    fst (UpdateTicketStatuses scenario.healthy [scenario.ticket 5 1 "available"]
           "cancelled" (scenario.begun scenario.one_available)) = Err e
    /\ pending (snd (UpdateTicketStatuses scenario.healthy
                       [scenario.ticket 5 1 "available"] "cancelled"
                       (scenario.begun scenario.one_available))) = Some ws'
    /\ sql.tickets (view scenario.one_available ws') = sql.tickets scenario.one_available.
Proof.
  destruct (UpdateTicketStatuses_unchecked_status_changes_nothing scenario.healthy
              [scenario.ticket 5 1 "available"] "cancelled"
              (scenario.begun scenario.one_available) [] _ _
              eq_refl eq_refl (surjective_pairing _))
    as (ws' & Hp & Hv & _).
  eexists _, ws'. split; [reflexivity|]. split; [exact Hp | exact Hv].
Defined.

Lemma mark_twice a b ids ts :
  spec.mark b ids (spec.mark a ids ts) = spec.mark b ids ts.
Proof.
  rewrite !mark_closed_form, map_map. apply map_ext. intros t.
  destruct (existsb (N.eqb (models.Ticket.ID t)) ids) eqn:E; cbn; rewrite E; reflexivity.
Qed.

Lemma UpdateTicketStatuses_done env tickets status s ws s' :
  pending s = Some ws ->
  UpdateTicketStatuses env tickets status s = (Ok tt, s') ->
  committed s' = committed s
  /\ pending s' = Some (ws ++ map (UpdatedTicket status) (ids_of tickets)).
Proof.
  intros Hp H. unfold UpdateTicketStatuses in H.
  destruct (UpdateTicketStatuses_from_pending _ _ _ _ _ _ _ _ Hp H)
    as (done & rest & Hids & Hr & Hc & Hpend).
  rewrite (Hr eq_refl), app_nil_r in Hids. subst done. auto.
Qed.

(** X11: the last status wins.  Updating the same tickets first to one
    status and then to another, in one transaction, leaves the tickets
    table as the second update alone would. *)
Theorem UpdateTicketStatuses_last_status_wins :
  forall env1 env2 env3 tickets a b s ws s1 s2 s3,
    pending s = Some ws ->
    UpdateTicketStatuses env1 tickets a s = (Ok tt, s1) ->
    UpdateTicketStatuses env2 tickets b s1 = (Ok tt, s2) ->
    UpdateTicketStatuses env3 tickets b s = (Ok tt, s3) ->
    exists ws2 ws3,
      pending s2 = Some ws2 /\ pending s3 = Some ws3
      /\ sql.tickets (view (committed s2) ws2) = sql.tickets (view (committed s3) ws3).
Proof.
  intros env1 env2 env3 tickets a b s ws s1 s2 s3 Hp H1 H2 H3.
  destruct (UpdateTicketStatuses_done _ _ _ _ _ _ Hp H1) as [Hc1 Hp1].
  destruct (UpdateTicketStatuses_done _ _ _ _ _ _ Hp1 H2) as [Hc2 Hp2].
  destruct (UpdateTicketStatuses_done _ _ _ _ _ _ Hp H3) as [Hc3 Hp3].
  eexists _, _. split; [exact Hp2|]. split; [exact Hp3|].
  rewrite Hc2, Hc1, Hc3, !view_app, !view_updates. cbn [sql.tickets].
  apply mark_twice.
Qed.

Lemma UpdateTicketStatuses_last_status_wins_witness :
  exists ws2 ws3,
    pending (snd (UpdateTicketStatuses scenario.healthy [scenario.ticket 5 1 "available"]
                    "sold"
                    (snd (UpdateTicketStatuses scenario.healthy
                            [scenario.ticket 5 1 "available"] "pending"
                            (scenario.begun scenario.one_available))))) = Some ws2
    /\ pending (snd (UpdateTicketStatuses scenario.healthy
                       [scenario.ticket 5 1 "available"] "sold"
                       (scenario.begun scenario.one_available))) = Some ws3
    /\ sql.tickets (view scenario.one_available ws2)
       = sql.tickets (view scenario.one_available ws3).
Proof.
  exact (UpdateTicketStatuses_last_status_wins scenario.healthy scenario.healthy
           scenario.healthy [scenario.ticket 5 1 "available"] "pending" "sold"
           (scenario.begun scenario.one_available) [] _ _ _ eq_refl eq_refl eq_refl eq_refl).
Defined.

(** ** The two lookups *)

(** X12: when the query is answered, [GetAvailableTicketsBySessionID]
    returns as many tickets as asked for, or all the available tickets
    of the session when there are fewer; each of them belongs to the
    session and is available; and nothing but the statement log
    changes. *)
Theorem GetAvailableTicketsBySessionID_returns_available :
  forall env sessionID numberOfTickets s,
    select_err env = None ->
    0 <= numberOfTickets ->
    exists sel,
      GetAvailableTicketsBySessionID env sessionID numberOfTickets s
      = (Ok sel, record (Pool, SelectAvailableForUpdate sessionID numberOfTickets) s)
      /\ List.length sel
         = Nat.min (Z.to_nat numberOfTickets)
             (List.length (spec.available sessionID (sql.tickets (committed s))))
      /\ Forall (fun t => models.Ticket.SessionID t = sessionID
                          /\ models.Ticket.Status t = "available"
                          /\ In t (sql.tickets (committed s))) sel.
Proof.
  intros env sid n s Herr Hn. unfold GetAvailableTicketsBySessionID. rewrite Herr.
  cbn [committed record].
  destruct (select_available sid n (sql.tickets (committed s))) as [sel|e] eqn:E.
  - exists sel. split; [reflexivity|].
    destruct (select_available_spec _ _ _ _ E) as (_ & _ & Hin & _ & Hlen).
    split; [exact Hlen|].
    apply Forall_forall. intros t Ht. apply Hin in Ht.
    unfold spec.available in Ht. apply filter_In in Ht. destruct Ht as [Ht Hav].
    unfold available_in in Hav. apply andb_true_iff in Hav. destruct Hav as [H1 H2].
    apply Z.eqb_eq in H1. apply String.eqb_eq in H2. auto.
  - unfold select_available in E. destruct (Z.ltb_spec n 0); [lia | discriminate].
Qed.

Lemma GetAvailableTicketsBySessionID_returns_available_witness :
  exists sel,
    GetAvailableTicketsBySessionID scenario.healthy 1 3
      (scenario.fresh scenario.five_available)
    = (Ok sel, record (Pool, SelectAvailableForUpdate 1 3)
                 (scenario.fresh scenario.five_available))
    /\ List.length sel = 3%nat.
Proof.
  destruct (GetAvailableTicketsBySessionID_returns_available scenario.healthy 1 3
              (scenario.fresh scenario.five_available) eq_refl)
    as (sel & Hrun & Hlen & _).
  - lia.
  - exists sel. split; [exact Hrun|]. rewrite Hlen. reflexivity.
Defined.

(** X13: when the query is answered, [GetConcertSessionByID] never
    fails: it returns nil exactly when no session row has the id, and
    otherwise the fields of a row with that id; nothing but the
    statement log changes. *)
Theorem GetConcertSessionByID_finds_the_row :
  forall env id s,
    get_session_err env = None ->
    exists r,
      GetConcertSessionByID env id s = (Ok r, record (Pool, SelectSession id) s)
      /\ match r with
         | None =>
             forall row, In row (concert_sessions (committed s)) ->
                         db.ConcertSession.ID row <> id
         | Some concertSession =>
             models.ConcertSession.ID concertSession = id
             /\ exists row,
                 In row (concert_sessions (committed s))
                 /\ concertSession = db.ConcertSession.ToConcertSession row
         end.
Proof.
  intros env id s Herr. unfold GetConcertSessionByID. rewrite Herr.
  cbn [committed record]. unfold select_session.
  destruct (find _ _) as [row|] eqn:E.
  - eexists. split; [reflexivity|]. apply find_some in E. destruct E as [Hin He].
    apply Z.eqb_eq in He. split; [exact He|]. exists row. auto.
  - eexists. split; [reflexivity|]. intros row Hin Heq.
    apply (find_none _ _ E) in Hin. apply Z.eqb_neq in Hin. contradiction.
Qed.

Lemma GetConcertSessionByID_finds_the_row_witness :
  exists r,
    GetConcertSessionByID scenario.healthy 0 (scenario.fresh scenario.five_available)
    = (Ok r, record (Pool, SelectSession 0) (scenario.fresh scenario.five_available))
    /\ r = None.
Proof.
  destruct (GetConcertSessionByID_finds_the_row scenario.healthy 0
              (scenario.fresh scenario.five_available) eq_refl) as (r & Hrun & Hr).
  exists r. split; [exact Hrun|].
  vm_compute in Hrun. inversion Hrun. reflexivity.
Defined.
